(** * Request authorization routing: route matchers and the [proxy] rules

    A shallow embedding of [proxy.ts]: the route matcher built by
    [createRouteMatcher], the seven route categories instantiated from it,
    and the ordered rules of [proxy], followed by the properties the
    specification states about them.  Two pieces of the pages are embedded
    beside it: [getInitials] of the profile settings page and the row
    selection of the orders table.

    Conventions of the embedding.
    - A JavaScript string is a [string]; [===] on strings is [String.eqb].
    - A value of type [string | null | undefined] is an [option string];
      a condition on it is JavaScript truthiness ([truthy]): [null],
      [undefined] and the empty string are false.
    - [NextResponse.next()] is [Allow]; [NextResponse.redirect(u)] is
      [Redirect target query], where [target] is the string handed to
      [new URL(target, req.url)] and [query] lists, in order, the pairs set
      on [u.searchParams].  The URL that [target] resolves to, with its
      pathname and query, is given by [URL.parse]. *)

From Stdlib Require Import Bool List Ascii String NArith Permutation Sorted Lia.
Import ListNotations.
Open Scope string_scope.

(** ** The string primitives the matcher uses *)

Module JS.

(** [s.startsWith(pre)] *)
Fixpoint startsWith (s pre : string) {struct pre} : bool :=
  match pre with
  | EmptyString => true
  | String a pre' =>
      match s with
      | EmptyString => false
      | String b s' => Ascii.eqb a b && startsWith s' pre'
      end
  end.

(** [s.slice(n)] for [0 <= n] *)
Fixpoint slice (s : string) (n : nat) : string :=
  match n with
  | O => s
  | S n' => match s with
            | EmptyString => EmptyString
            | String _ s' => slice s' n'
            end
  end.

(** [s.includes(sub)]: [sub] occurs at some position of [s]. *)
Fixpoint includes (s sub : string) : bool :=
  startsWith s sub
  || match s with
     | EmptyString => false
     | String _ s' => includes s' sub
     end.

(** [s.replace(pat, rep)] with a string pattern: the first occurrence of
    [pat] is replaced, the others are left.  ([rep] is taken literally;
    the source only passes the empty string.) *)
Fixpoint replace (s pat rep : string) : string :=
  if startsWith s pat then rep ++ slice s (String.length pat)
  else match s with
       | EmptyString => EmptyString
       | String c s' => String c (replace s' pat rep)
       end.

(** Truthiness of a [string | null | undefined] value. *)
Definition truthy (v : option string) : bool :=
  match v with
  | Some s => negb (s =? "")
  | None => false
  end.

(** [`${v}`] for a [string | null] value. *)
Definition interpolate (v : option string) : string :=
  match v with
  | Some s => s
  | None => "null"
  end.

End JS.

(** ** Route matchers  (proxy.ts, lines 13-56) *)

(** The wildcard marker of a route. *)
Definition wildcard : string := "(.*)".

(** The callback given to [routes.some]: one route against the path. *)
Definition routeMatches (pathname route : string) : bool :=
  if route =? pathname then true
  else if JS.includes route wildcard then
    let baseRoute := JS.replace route wildcard "" in
    (pathname =? baseRoute) || JS.startsWith pathname (baseRoute ++ "/")
  else false.

(** [createRouteMatcher(routes)], applied to the path of the request. *)
Definition createRouteMatcher (routes : list string) (pathname : string) : bool :=
  existsb (routeMatches pathname) routes.

Definition isPublicRoute : string -> bool :=
  createRouteMatcher
    [ "/"; "/home"; "/sign-in(.*)"; "/sign-up(.*)"; "/privacy"; "/terms";
      "/robots.txt"; "/sitemap.xml"; "/favicon.ico"; "/favicon.svg";
      "/favicon-96x96.png"; "/apple-touch-icon.png"; "/opengraph-image.png" ].

Definition isOnboardingRoute : string -> bool := createRouteMatcher ["/onboarding"].
Definition isRootRoute : string -> bool := createRouteMatcher ["/"].
Definition isProtectedRoute : string -> bool :=
  createRouteMatcher ["/org(.*)"; "/settings(.*)"].
Definition isApiRoute : string -> bool := createRouteMatcher ["/api(.*)"].
Definition isSignInVerifyRoute : string -> bool :=
  createRouteMatcher ["/sign-in/verify"; "/sign-up/verify-email-address"].
Definition isAuthRoute : string -> bool :=
  createRouteMatcher ["/sign-in(.*)"; "/sign-up(.*)"].

(** ** The decision  (proxy.ts, lines 58-103) *)

Inductive Decision : Type :=
| Allow
| Redirect (target : string) (query : list (string * string)).

(** What [proxy] keeps of the session: [isAuthenticated] and
    [activeOrganizationSlug]. *)
Record SessionState : Type := mkSession
  { authenticated : bool;
    activeOrganizationSlug : option string }.

(** The body of [proxy] over its three inputs: the path, the two locals
    read from the session, and the value of the sign-in attempt cookie. *)
Definition decide (pathname : string) (session : SessionState)
    (attemptEmail : option string) : Decision :=
  if isApiRoute pathname then Allow
  else
    let isAuthenticated := authenticated session in
    let slug := activeOrganizationSlug session in
    if isSignInVerifyRoute pathname then
      if JS.truthy attemptEmail then Allow
      else Redirect "/sign-in" []
    else if isAuthenticated && JS.truthy slug then
      if isProtectedRoute pathname then Allow
      else if isPublicRoute pathname && negb (isRootRoute pathname)
              && negb (isAuthRoute pathname) then Allow
      else Redirect ("/org/" ++ JS.interpolate slug ++ "/dashboard") []
    else if isAuthenticated && isOnboardingRoute pathname then Allow
    else if negb isAuthenticated && negb (isPublicRoute pathname) then
      Redirect "/sign-in" [("redirect", pathname)]
    else if isAuthenticated && negb (JS.truthy slug) then
      if negb (isOnboardingRoute pathname) then Redirect "/onboarding" []
      else Allow
    else Allow.

(** The request as [proxy] reads it.  [getSessionFromCookie] belongs to
    the session provider; the request carries what it returns. *)
Record Session : Type := mkSessionData
  { sessionSlug : option string }.

Record NextRequest : Type := mkRequest
  { nextUrlPathname : string;
    sessionFromCookie : option Session;
    signInAttemptEmail : option string }.

Definition sessionState (req : NextRequest) : SessionState :=
  {| authenticated :=
       match sessionFromCookie req with Some _ => true | None => false end;
     activeOrganizationSlug :=
       match sessionFromCookie req with
       | Some s => sessionSlug s
       | None => None
       end |}.

Definition proxy (req : NextRequest) : Decision :=
  decide (nextUrlPathname req) (sessionState req) (signInAttemptEmail req).

(** ** The rules as an ordered table *)

Inductive Rule : Type :=
| ApiBypass
| VerificationGate
| WithOrganization
| OnboardingRevisit
| UnauthenticatedNonPublic
| NoOrganization
| Fallback.

Definition rules : list Rule :=
  [ ApiBypass; VerificationGate; WithOrganization; OnboardingRevisit;
    UnauthenticatedNonPublic; NoOrganization; Fallback ].

(** The condition written on each rule's own [if]. *)
Definition guard (r : Rule) (pathname : string) (session : SessionState) : bool :=
  match r with
  | ApiBypass => isApiRoute pathname
  | VerificationGate => isSignInVerifyRoute pathname
  | WithOrganization =>
      authenticated session && JS.truthy (activeOrganizationSlug session)
  | OnboardingRevisit => authenticated session && isOnboardingRoute pathname
  | UnauthenticatedNonPublic =>
      negb (authenticated session) && negb (isPublicRoute pathname)
  | NoOrganization =>
      authenticated session && negb (JS.truthy (activeOrganizationSlug session))
  | Fallback => true
  end.

(** What each rule returns once its condition holds. *)
Definition outcome (r : Rule) (pathname : string) (session : SessionState)
    (attemptEmail : option string) : Decision :=
  match r with
  | ApiBypass => Allow
  | VerificationGate =>
      if JS.truthy attemptEmail then Allow else Redirect "/sign-in" []
  | WithOrganization =>
      if isProtectedRoute pathname then Allow
      else if isPublicRoute pathname && negb (isRootRoute pathname)
              && negb (isAuthRoute pathname) then Allow
      else Redirect
             ("/org/" ++ JS.interpolate (activeOrganizationSlug session)
                      ++ "/dashboard") []
  | OnboardingRevisit => Allow
  | UnauthenticatedNonPublic => Redirect "/sign-in" [("redirect", pathname)]
  | NoOrganization =>
      if negb (isOnboardingRoute pathname) then Redirect "/onboarding" []
      else Allow
  | Fallback => Allow
  end.

(** The place of a rule in the order of evaluation. *)
Definition position (r : Rule) : nat :=
  match r with
  | ApiBypass => 0
  | VerificationGate => 1
  | WithOrganization => 2
  | OnboardingRevisit => 3
  | UnauthenticatedNonPublic => 4
  | NoOrganization => 5
  | Fallback => 6
  end.

(** The rules evaluated before [r]. *)
Definition before (r : Rule) : list Rule := firstn (position r) rules.

(** Rule [r] fires: its condition holds and no earlier rule's does. *)
Definition fires (r : Rule) (pathname : string) (session : SessionState) : bool :=
  guard r pathname session
  && forallb (fun r' => negb (guard r' pathname session)) (before r).

(** First match wins. *)
Definition firstMatch (rs : list Rule) (pathname : string)
    (session : SessionState) : Rule :=
  match find (fun r => guard r pathname session) rs with
  | Some r => r
  | None => Fallback
  end.

(** [proxy] with the onboarding-revisit [if] (lines 80-83) deleted; the
    else-branch of the no-organization rule is the one left to let
    [/onboarding] through. *)
Definition decideWithoutOnboardingRevisit (pathname : string)
    (session : SessionState) (attemptEmail : option string) : Decision :=
  if isApiRoute pathname then Allow
  else
    let isAuthenticated := authenticated session in
    let slug := activeOrganizationSlug session in
    if isSignInVerifyRoute pathname then
      if JS.truthy attemptEmail then Allow
      else Redirect "/sign-in" []
    else if isAuthenticated && JS.truthy slug then
      if isProtectedRoute pathname then Allow
      else if isPublicRoute pathname && negb (isRootRoute pathname)
              && negb (isAuthRoute pathname) then Allow
      else Redirect ("/org/" ++ JS.interpolate slug ++ "/dashboard") []
    else if negb isAuthenticated && negb (isPublicRoute pathname) then
      Redirect "/sign-in" [("redirect", pathname)]
    else if isAuthenticated && negb (JS.truthy slug) then
      if negb (isOnboardingRoute pathname) then Redirect "/onboarding" []
      else Allow
    else Allow.

(** ** The matcher as the specification words it *)

(** The two kinds of pattern: an exact path, or a base with the wildcard
    suffix. *)
Inductive RoutePattern : Type :=
| Exact (p : string)
| PrefixOf (base : string).

(** The route string a pattern is written as. *)
Definition patternText (r : RoutePattern) : string :=
  match r with
  | Exact p => p
  | PrefixOf b => b ++ wildcard
  end.

(** Exact [p] matches iff [path == p]; prefix [b] matches iff [path == b]
    or [path] starts with [b + "/"]. *)
Definition specMatches (path : string) (r : RoutePattern) : bool :=
  match r with
  | Exact p => path =? p
  | PrefixOf b => (path =? b) || JS.startsWith path (b ++ "/")
  end.

(** What the matcher computes on a pattern: as [specMatches], and a prefix
    pattern also matches the path that spells the pattern itself. *)
Definition codeMatches (path : string) (r : RoutePattern) : bool :=
  match r with
  | Exact p => path =? p
  | PrefixOf b =>
      (path =? b ++ wildcard) || (path =? b) || JS.startsWith path (b ++ "/")
  end.

(** A pattern whose only wildcard marker is the suffix of a prefix
    pattern. *)
Definition plain (r : RoutePattern) : Prop :=
  match r with
  | Exact p => JS.includes p wildcard = false
  | PrefixOf b => JS.includes b wildcard = false
  end.

(** ** The URL a redirect resolves to

    [NextResponse.redirect(new URL(target, req.url))] answers with the URL
    that [target] resolves to against the request URL.  [URL.parse] follows
    the URL parser on the inputs [proxy] gives it: a string beginning with
    one [/], read against an http(s) base, whose host it keeps.  It covers
    the path state (segments, dot segments and their percent-encoded
    spellings, backslash as a separator) and the split at the first [?]
    and [#]; on a character the parser would percent-encode or strip, and
    on an input that names a host, it gives [None]. *)

Module URL.

Inductive CharKind : Type :=
| Separator
| QueryMark
| HashMark
| Copied
| Unmodelled.

Definition isOneOf (c : ascii) (cs : list ascii) : bool :=
  existsb (Ascii.eqb c) cs.

(** The printable ASCII range, 0x21 to 0x7E. *)
Definition printable (c : ascii) : bool :=
  (N.leb 33 (N_of_ascii c) && N.leb (N_of_ascii c) 126)%bool.

(** How the path state treats a character.  The characters of the path
    percent-encode set, and anything outside printable ASCII, are left to
    [Unmodelled]. *)
Definition kind (c : ascii) : CharKind :=
  if isOneOf c ["/"; "\"]%char then Separator
  else if Ascii.eqb c "?" then QueryMark
  else if Ascii.eqb c "#" then HashMark
  else if (printable c
           && negb (isOneOf c [ascii_of_nat 34; "<"; ">"; "`"; "{"; "}"; "^"]%char))%bool
       then Copied
  else Unmodelled.

(** The number of dots a buffer spells, a dot being [.] or [%2e] in either
    case; [None] when it holds anything else. *)
Fixpoint dots (buffer : string) : option nat :=
  match buffer with
  | EmptyString => Some 0
  | String c rest =>
      if Ascii.eqb c "." then option_map S (dots rest)
      else if Ascii.eqb c "%" then
        match rest with
        | String d (String e rest') =>
            if (Ascii.eqb d "2" && isOneOf e ["e"; "E"]%char)%bool
            then option_map S (dots rest')
            else None
        | _ => None
        end
      else None
  end.

Definition isSingleDot (buffer : string) : bool :=
  match dots buffer with Some 1 => true | _ => false end.

Definition isDoubleDot (buffer : string) : bool :=
  match dots buffer with Some 2 => true | _ => false end.

(** The end of a segment: [slash] tells whether a separator ended it. *)
Definition closeSegment (path : list string) (buffer : string) (slash : bool)
  : list string :=
  if isDoubleDot buffer then
    if slash then removelast path else (removelast path ++ [EmptyString])%list
  else if isSingleDot buffer then
    if slash then path else (path ++ [EmptyString])%list
  else (path ++ [buffer])%list.

(** The path state: the segments read, and what is left from the first
    [?] or [#] on. *)
Fixpoint pathState (input : string) (path : list string) (buffer : string)
  : option (list string * string) :=
  match input with
  | EmptyString => Some (closeSegment path buffer false, EmptyString)
  | String c rest =>
      match kind c with
      | Separator => pathState rest (closeSegment path buffer true) EmptyString
      | QueryMark | HashMark => Some (closeSegment path buffer false, input)
      | Copied => pathState rest path (buffer ++ String c EmptyString)
      | Unmodelled => None
      end
  end.

(** The query state: the characters up to the first [#]; those the parser
    would percent-encode are left out of the model. *)
Fixpoint queryState (input : string) : option string :=
  match input with
  | EmptyString => Some EmptyString
  | String c rest =>
      if Ascii.eqb c "#" then Some EmptyString
      else if (printable c
               && negb (isOneOf c [ascii_of_nat 34; "<"; ">"; "'"]%char))%bool
      then option_map (String c) (queryState rest)
      else None
  end.

(** What [proxy]'s caller reads of the URL: [pathname] and [search]. *)
Record Parsed : Type := mkParsed
  { pathname : string;
    search : string }.

Definition serializePath (path : list string) : string :=
  fold_right (fun segment acc => "/" ++ segment ++ acc) EmptyString path.

Definition parse (input : string) : option Parsed :=
  match input with
  | String "/" rest =>
      let namesHost :=
        match rest with
        | String c _ => match kind c with Separator => true | _ => false end
        | EmptyString => false
        end in
      if namesHost then None
      else
        match pathState rest [] EmptyString with
        | None => None
        | Some (path, tail) =>
            match tail with
            | String "?" query =>
                match queryState query with
                | Some EmptyString => Some (mkParsed (serializePath path) EmptyString)
                | Some q => Some (mkParsed (serializePath path) ("?" ++ q))
                | None => None
                end
            | _ => Some (mkParsed (serializePath path) EmptyString)
            end
        end
  | _ => None
  end.

(** A slug that is one ordinary path segment: characters the path state
    copies, no [%], and not a dot segment. *)
Definition plainSegment (x : string) : bool :=
  (forallb (fun c => match kind c with
                     | Copied => negb (Ascii.eqb c "%")
                     | _ => false
                     end) (list_ascii_of_string x)
   && negb (x =? ".") && negb (x =? ".."))%bool.

End URL.

(** The slug, when there is one, is an ordinary path segment. *)
Definition plainSlug (slug : option string) : bool :=
  match slug with
  | Some x => URL.plainSegment x
  | None => true
  end.

(** ** Profile initials  (settings/page.tsx, lines 153-164) *)

Module Profile.

(** [s.split(sep)] on a one-character separator: the segments between
    the separators, empty ones included; the empty string gives one empty
    segment. *)
Fixpoint split (s : string) (sep : ascii) : list string :=
  match s with
  | EmptyString => [EmptyString]
  | String c s' =>
      if Ascii.eqb c sep then EmptyString :: split s' sep
      else match split s' sep with
           | [] => [String c EmptyString]
           | w :: ws => String c w :: ws
           end
  end.

(** [n[0]]: the first character, [undefined] on the empty string. *)
Definition first (n : string) : option ascii :=
  match n with
  | EmptyString => None
  | String c _ => Some c
  end.

(** [xs.join('')]: an [undefined] element is joined as the empty string. *)
Fixpoint join (xs : list (option ascii)) : string :=
  match xs with
  | [] => EmptyString
  | Some c :: xs' => String c (join xs')
  | None :: xs' => join xs'
  end.

(** [s.slice(0, n)] *)
Fixpoint sliceTo (s : string) (n : nat) : string :=
  match n, s with
  | S n', String c s' => String c (sliceTo s' n')
  | _, _ => EmptyString
  end.

(** [displayName.split(' ').map((n) => n[0]).join('')] *)
Definition firstLetters (displayName : string) : string :=
  join (map first (split displayName " "%char)).

(** A display name made of [n] spaces. *)
Fixpoint blank (n : nat) : string :=
  match n with
  | O => EmptyString
  | S n' => String " " (blank n')
  end.

(** What [getInitials] reads of [userData]. *)
Record UserData : Type := mkUserData
  { displayName : option string;
    email : string }.

(** A call either returns or throws a [TypeError]. *)
Inductive Completion (A : Type) : Type :=
| Returned (v : A)
| TypeError.
Arguments Returned {A} v.
Arguments TypeError {A}.

Section Initials.

(** [String.prototype.toUpperCase] is the runtime's. *)
Variable toUpperCase : string -> string.

(** [getInitials()], over the [userData] it closes on; the value returned
    is a [string] or [undefined]. *)
Definition getInitials (userData : option UserData)
  : Completion (option string) :=
  match userData with
  | None => Returned None
  | Some u =>
      let fromEmail :=
        match first (email u) with
        | None => TypeError
        | Some c => Returned (Some (toUpperCase (String c EmptyString)))
        end in
      match displayName u with
      | Some name =>
          if name =? "" then fromEmail
          else Returned (Some (sliceTo (toUpperCase (firstLetters name)) 2))
      | None => fromEmail
      end
  end.

End Initials.

End Profile.

(** ** Row selection of the orders table
       (orders-data-table.tsx, lines 136-153) *)

Module Orders.

(** A [Record<string, boolean>]: its own properties in creation order. *)
Definition RowSelectionState : Type := list (string * bool).

(** An ordinary [o[k] = v]: an existing property keeps its place. *)
Fixpoint assign (o : RowSelectionState) (k : string) (v : bool)
  : RowSelectionState :=
  match o with
  | [] => [(k, v)]
  | (k', v') :: o' =>
      if k' =? k then (k', v) :: o' else (k', v') :: assign o' k v
  end.

(** [o[k] = v] on an object literal, [v] a boolean: the key [__proto__]
    reaches the prototype setter, which ignores a primitive, and no
    property is created. *)
Definition setProperty (o : RowSelectionState) (k : string) (v : bool)
  : RowSelectionState :=
  if k =? "__proto__" then o else assign o k v.

(** [o[k]] for an own key [k]. *)
Fixpoint getProperty (o : RowSelectionState) (k : string) : bool :=
  match o with
  | [] => false
  | (k', v) :: o' => if k' =? k then v else getProperty o' k
  end.

Definition digit (c : ascii) : option N :=
  let n := N_of_ascii c in
  if (N.leb 48 n && N.leb n 57)%bool then Some (N.sub n 48) else None.

Fixpoint digits (s : string) (acc : N) : option N :=
  match s with
  | EmptyString => Some acc
  | String c s' =>
      match digit c with
      | Some d => digits s' (N.add (N.mul 10 acc) d)
      | None => None
      end
  end.

(** The array index a key denotes: a canonical decimal numeral (no
    leading zero) of value at most 2^32 - 2. *)
Definition arrayIndex (k : string) : option N :=
  match k with
  | EmptyString => None
  | String c rest =>
      if (Ascii.eqb c "0" && negb (rest =? ""))%bool then None
      else match digits k 0%N with
           | Some n => if N.leb n 4294967294 then Some n else None
           | None => None
           end
  end.

Definition isArrayIndex (k : string) : bool :=
  match arrayIndex k with Some _ => true | None => false end.

Fixpoint insertIndex (n : N) (k : string) (l : list (N * string))
  : list (N * string) :=
  match l with
  | [] => [(n, k)]
  | (m, k') :: l' =>
      if N.leb n m then (n, k) :: l else (m, k') :: insertIndex n k l'
  end.

(** The array-index keys among [keys], in ascending numeric order. *)
Fixpoint indexKeys (keys : list string) : list (N * string) :=
  match keys with
  | [] => []
  | k :: keys' =>
      match arrayIndex k with
      | Some n => insertIndex n k (indexKeys keys')
      | None => indexKeys keys'
      end
  end.

(** [Object.keys(o)]: the array-index keys in ascending order, then the
    other keys in creation order. *)
Definition ownKeys (o : RowSelectionState) : list string :=
  map snd (indexKeys (map fst o))
  ++ filter (fun k => negb (isArrayIndex k)) (map fst o).

(** Every property of [o] is [true]. *)
Definition allSelected (o : RowSelectionState) : Prop :=
  Forall (fun kv => snd kv = true) o.

(** The [rowSelection] memo: every selected id set to [true]. *)
Definition rowSelection (selectedRowIds : list string) : RowSelectionState :=
  fold_left (fun o id => setProperty o id true) selectedRowIds [].

(** An [Updater<RowSelectionState>]: a function of the old state, or the
    new state. *)
Inductive Updater : Type :=
| UpdaterFunction (f : RowSelectionState -> RowSelectionState)
| UpdaterValue (v : RowSelectionState).

(** [handleRowSelectionChange]: the ids handed to [onRowSelectionChange]. *)
Definition handleRowSelectionChange (current : RowSelectionState)
    (updaterOrValue : Updater) : list string :=
  let newRowSelection :=
    match updaterOrValue with
    | UpdaterFunction f => f current
    | UpdaterValue v => v
    end in
  filter (fun key => getProperty newRowSelection key) (ownKeys newRowSelection).

End Orders.

(** * Properties *)

(** ** String primitives *)

Section StringFacts.

Lemma startsWith_app (pre rest : string) :
  JS.startsWith (pre ++ rest) pre = true.
Proof.
  induction pre as [|c pre IH]; cbn [append JS.startsWith].
  - reflexivity.
  - now rewrite Ascii.eqb_refl, IH.
Qed.

Lemma startsWith_refl (s : string) : JS.startsWith s s = true.
Proof.
  induction s as [|c s IH]; cbn [JS.startsWith].
  - reflexivity.
  - now rewrite Ascii.eqb_refl, IH.
Qed.

Lemma includes_cons_false (c : ascii) (s sub : string) :
  JS.includes (String c s) sub = false ->
  JS.startsWith (String c s) sub = false /\ JS.includes s sub = false.
Proof.
  cbn [JS.includes]. intros H. now apply orb_false_elim in H.
Qed.

Lemma includes_app_wildcard (b : string) :
  JS.includes (b ++ wildcard) wildcard = true.
Proof.
  induction b as [|c b IH].
  - reflexivity.
  - change (String c b ++ wildcard) with (String c (b ++ wildcard)).
    cbn [JS.includes]. rewrite IH. apply orb_true_r.
Qed.

(** The marker has no border: it cannot begin inside [b] and end inside
    the marker appended to [b]. *)
Lemma startsWith_wildcard_straddle (c : ascii) (b : string) :
  JS.startsWith (String c b) wildcard = false ->
  JS.startsWith (String c (b ++ wildcard)) wildcard = false.
Proof.
  unfold wildcard.
  destruct b as [|c1 [|c2 [|c3 b]]];
    cbn [append JS.startsWith]; intros H;
    repeat match goal with
           | |- context [Ascii.eqb ?a ?x] =>
               is_var x; destruct (Ascii.eqb a x); cbn [andb] in *
           end;
    try reflexivity; try discriminate H.
Qed.

Lemma replace_wildcard_suffix (b : string) :
  JS.includes b wildcard = false ->
  JS.replace (b ++ wildcard) wildcard "" = b.
Proof.
  induction b as [|c b IH]; intros H.
  - reflexivity.
  - apply includes_cons_false in H. destruct H as [Hhead Htail].
    change (String c b ++ wildcard) with (String c (b ++ wildcard)).
    cbn [JS.replace].
    rewrite (startsWith_wildcard_straddle _ _ Hhead).
    now rewrite (IH Htail).
Qed.

Lemma includes_self_false (s sub : string) :
  sub <> "" -> JS.includes s sub = false -> forall b, (s =? b ++ sub) = false.
Proof.
  intros Hsub H b. apply String.eqb_neq. intros ->.
  revert H. induction b as [|c b IH].
  - cbn [append]. destruct sub as [|a sub]; [contradiction|].
    cbn [JS.includes]. now rewrite startsWith_refl.
  - change (String c b ++ sub) with (String c (b ++ sub)).
    intros H. apply includes_cons_false in H. destruct H as [_ H]. auto.
Qed.

End StringFacts.

(** ** The route matcher *)

Section MatcherFacts.

Lemma routeMatches_exact (path p : string) :
  JS.includes p wildcard = false ->
  routeMatches path p = (path =? p).
Proof.
  intros H. unfold routeMatches. rewrite H, (String.eqb_sym p path).
  now destruct (path =? p).
Qed.

Lemma routeMatches_prefix (path b : string) :
  JS.includes b wildcard = false ->
  routeMatches path (b ++ wildcard)
  = (path =? b ++ wildcard) || (path =? b) || JS.startsWith path (b ++ "/").
Proof.
  intros H. unfold routeMatches.
  rewrite includes_app_wildcard, (replace_wildcard_suffix _ H).
  rewrite (String.eqb_sym (b ++ wildcard) path).
  destruct (path =? b ++ wildcard); cbn [orb]; reflexivity.
Qed.

Lemma routeMatches_plain (path : string) (r : RoutePattern) :
  plain r -> routeMatches path (patternText r) = codeMatches path r.
Proof.
  destruct r as [p|b]; cbn [plain patternText codeMatches].
  - apply routeMatches_exact.
  - apply routeMatches_prefix.
Qed.

Lemma createRouteMatcher_plain (pats : list RoutePattern) (path : string) :
  Forall plain pats ->
  createRouteMatcher (map patternText pats) path
  = existsb (codeMatches path) pats.
Proof.
  unfold createRouteMatcher.
  induction 1 as [|r pats Hr _ IH]; cbn [map existsb].
  - reflexivity.
  - now rewrite (routeMatches_plain _ _ Hr), IH.
Qed.

(** On a path that does not contain the marker, the two readings of a
    pattern agree. *)
Lemma codeMatches_markerless (path : string) (r : RoutePattern) :
  JS.includes path wildcard = false ->
  codeMatches path r = specMatches path r.
Proof.
  intros H. destruct r as [p|b]; cbn [codeMatches specMatches].
  - reflexivity.
  - rewrite (includes_self_false path wildcard); [reflexivity| |exact H].
    discriminate.
Qed.

(** The categories, spelled out. *)

Lemma isApiRoute_eq (p : string) :
  isApiRoute p
  = (p =? "/api(.*)") || (p =? "/api") || JS.startsWith p "/api/".
Proof.
  change (isApiRoute p)
    with (createRouteMatcher (map patternText [PrefixOf "/api"]) p).
  rewrite createRouteMatcher_plain by (repeat constructor).
  cbn [existsb codeMatches]. apply orb_false_r.
Qed.

Lemma isSignInVerifyRoute_eq (p : string) :
  isSignInVerifyRoute p
  = (p =? "/sign-in/verify") || (p =? "/sign-up/verify-email-address").
Proof.
  change (isSignInVerifyRoute p)
    with (createRouteMatcher
            (map patternText
               [Exact "/sign-in/verify"; Exact "/sign-up/verify-email-address"])
            p).
  rewrite createRouteMatcher_plain by (repeat constructor).
  cbn [existsb codeMatches]. now rewrite orb_false_r.
Qed.

Lemma isOnboardingRoute_eq (p : string) :
  isOnboardingRoute p = (p =? "/onboarding").
Proof.
  change (isOnboardingRoute p)
    with (createRouteMatcher (map patternText [Exact "/onboarding"]) p).
  rewrite createRouteMatcher_plain by (repeat constructor).
  cbn [existsb codeMatches]. apply orb_false_r.
Qed.

Lemma isProtectedRoute_nested (base rest : string) :
  base = "/org" \/ base = "/settings" ->
  isProtectedRoute (base ++ "/" ++ rest) = true.
Proof.
  change isProtectedRoute
    with (createRouteMatcher
            (map patternText [PrefixOf "/org"; PrefixOf "/settings"])).
  intros H. rewrite createRouteMatcher_plain by (repeat constructor).
  cbn [existsb codeMatches].
  destruct H as [-> | ->]; cbn [append JS.startsWith];
    rewrite ?Ascii.eqb_refl, ?orb_true_r; reflexivity.
Qed.

Lemma signInVerify_cases (p : string) :
  isSignInVerifyRoute p = true <->
  p = "/sign-in/verify" \/ p = "/sign-up/verify-email-address".
Proof.
  rewrite isSignInVerifyRoute_eq, orb_true_iff, !String.eqb_eq. tauto.
Qed.

Lemma signInVerify_not_api (p : string) :
  isSignInVerifyRoute p = true -> isApiRoute p = false.
Proof.
  intros H. apply signInVerify_cases in H. now destruct H as [-> | ->].
Qed.

Lemma signInVerify_public (p : string) :
  isSignInVerifyRoute p = true -> isPublicRoute p = true.
Proof.
  intros H. apply signInVerify_cases in H. now destruct H as [-> | ->].
Qed.

End MatcherFacts.

(** ** The rules of [decide] *)

(** Splits on every condition the rules test. *)
Ltac split_conditions p a slug :=
  destruct (isApiRoute p) eqn:Hapi;
  destruct (isSignInVerifyRoute p) eqn:Hverify;
  destruct a;
  destruct (JS.truthy slug) eqn:Hslug;
  destruct (isOnboardingRoute p) eqn:Honboarding;
  destruct (isPublicRoute p) eqn:Hpublic;
  cbn [andb orb negb].

Section RuleFacts.

Lemma truthy_some (s : string) : s <> "" -> JS.truthy (Some s) = true.
Proof.
  intros H. cbn [JS.truthy]. apply negb_true_iff. now apply String.eqb_neq.
Qed.

Lemma truthy_false (v : option string) :
  JS.truthy v = false <-> v = None \/ v = Some "".
Proof.
  destruct v as [s|]; cbn [JS.truthy].
  - rewrite negb_false_iff, String.eqb_eq. split.
    + intros ->. now right.
    + intros [H|H]; congruence.
  - split; [now left | reflexivity].
Qed.

Lemma decide_api (p : string) (s : SessionState) (m : option string) :
  isApiRoute p = true -> decide p s m = Allow.
Proof. intros H. unfold decide. now rewrite H. Qed.

Lemma decide_verify (p : string) (s : SessionState) (m : option string) :
  isSignInVerifyRoute p = true ->
  decide p s m = if JS.truthy m then Allow else Redirect "/sign-in" [].
Proof.
  intros H. unfold decide. now rewrite (signInVerify_not_api _ H), H.
Qed.

Lemma decide_with_organization (p : string) (slug m : option string) :
  isApiRoute p = false -> isSignInVerifyRoute p = false ->
  JS.truthy slug = true ->
  decide p (mkSession true slug) m
  = if isProtectedRoute p then Allow
    else if isPublicRoute p && negb (isRootRoute p) && negb (isAuthRoute p)
         then Allow
         else Redirect ("/org/" ++ JS.interpolate slug ++ "/dashboard") [].
Proof.
  intros Hapi Hverify Hslug. unfold decide.
  cbn [authenticated activeOrganizationSlug].
  now rewrite Hapi, Hverify, Hslug.
Qed.

Lemma firstMatch_fires (r : Rule) (p : string) (s : SessionState) :
  fires r p s = true <-> firstMatch rules p s = r.
Proof.
  destruct s as [a slug].
  unfold fires, firstMatch, before, rules.
  destruct r;
    cbn [find firstn position forallb guard authenticated
         activeOrganizationSlug];
    split_conditions p a slug;
    split; intros H; try reflexivity; discriminate H.
Qed.

Lemma decide_firstMatch (p : string) (s : SessionState) (m : option string) :
  decide p s m = outcome (firstMatch rules p s) p s m.
Proof.
  destruct s as [a slug].
  unfold decide, firstMatch, rules.
  cbn [find guard authenticated activeOrganizationSlug].
  split_conditions p a slug; cbn [outcome activeOrganizationSlug negb];
    rewrite ?Honboarding, ?Hpublic; reflexivity.
Qed.

(** What [proxy] reads from a request: without a session there is no
    slug. *)
Lemma sessionState_unauthenticated (req : NextRequest) :
  authenticated (sessionState req) = false ->
  activeOrganizationSlug (sessionState req) = None.
Proof.
  unfold sessionState. cbn [authenticated activeOrganizationSlug].
  now destruct (sessionFromCookie req).
Qed.

Lemma proxy_fires (req : NextRequest) :
  let r := firstMatch rules (nextUrlPathname req) (sessionState req) in
  proxy req
  = outcome r (nextUrlPathname req) (sessionState req) (signInAttemptEmail req).
Proof. apply decide_firstMatch. Qed.

End RuleFacts.

(** ** API bypass *)

(** C1 (API immunity).  On a path of the api category -- the path [/api],
    a path beginning with [/api/], or any other path [isApiRoute] accepts --
    [decide] returns [Allow] for every session state and every attempt
    marker, so the decision there depends on neither. *)
Theorem api_immunity (path : string) :
  isApiRoute path = true \/ path = "/api" \/ JS.startsWith path "/api/" = true ->
  forall (s : SessionState) (m : option string),
    decide path s m = Allow
    /\ forall (s' : SessionState) (m' : option string),
         decide path s' m' = decide path s m.
Proof.
  intros H.
  assert (Hapi : isApiRoute path = true).
  { destruct H as [H | [-> | H]].
    - exact H.
    - reflexivity.
    - rewrite isApiRoute_eq, H. apply orb_true_r. }
  intros s m. split.
  - now apply decide_api.
  - intros s' m'. now rewrite !decide_api.
Qed.

Lemma api_immunity_witness :
  decide "/api/trpc/user.list" (mkSession false None) None = Allow.
Proof.
  exact (proj1 (api_immunity "/api/trpc/user.list"
                  (or_intror (or_intror eq_refl))
                  (mkSession false None) None)).
Defined.

(** ** Verification gate *)

(** C2, as the claim states it, fails when the attempt cookie is present
    with an empty value: the marker is there, and the request is sent back
    to [/sign-in]. *)
Lemma verification_gate_empty_marker :
  isSignInVerifyRoute "/sign-in/verify" = true
  /\ decide "/sign-in/verify" (mkSession false None) (Some "")
     = Redirect "/sign-in" [].
Proof. split; reflexivity. Qed.

(** C2 (verification gate), amended.  On a path of the signInVerify
    category ([/sign-in/verify] or [/sign-up/verify-email-address]) and for
    every session state, [decide] returns [Allow] when the attempt marker is
    present and not empty, and [Redirect] to [/sign-in] with an empty query
    when it is absent or empty; authentication and organization play no
    part. *)
Theorem verification_gate (path : string) :
  isSignInVerifyRoute path = true
  \/ path = "/sign-in/verify" \/ path = "/sign-up/verify-email-address" ->
  forall s : SessionState,
    (forall e : string, e <> "" -> decide path s (Some e) = Allow)
    /\ decide path s None = Redirect "/sign-in" []
    /\ decide path s (Some "") = Redirect "/sign-in" [].
Proof.
  intros H.
  assert (Hverify : isSignInVerifyRoute path = true).
  { destruct H as [H | H]; [exact H | now apply signInVerify_cases]. }
  intros s. repeat split.
  - intros e He. now rewrite (decide_verify _ _ _ Hverify), (truthy_some _ He).
  - now rewrite (decide_verify _ _ _ Hverify).
  - now rewrite (decide_verify _ _ _ Hverify).
Qed.

Lemma verification_gate_witness :
  decide "/sign-in/verify" (mkSession true (Some "test-org")) None
  = Redirect "/sign-in" [].
Proof.
  exact (proj1 (proj2 (verification_gate "/sign-in/verify"
                         (or_intror (or_introl eq_refl))
                         (mkSession true (Some "test-org"))))).
Defined.

(** ** Authenticated, with an organization *)

(** C3, as the claim states it, fails for the slug [Some ""]: an empty slug
    is not an organization to [proxy], and the protected path [/settings]
    is answered with the onboarding redirect. *)
Lemma with_organization_empty_slug :
  isApiRoute "/settings" = false
  /\ isSignInVerifyRoute "/settings" = false
  /\ isProtectedRoute "/settings" = true
  /\ decide "/settings" (mkSession true (Some "")) None
     = Redirect "/onboarding" [].
Proof. repeat split; reflexivity. Qed.

(** C3 (authenticated with an organization), amended.  For an authenticated
    session whose slug is [Some s] with [s] not empty, and a path in
    neither api nor signInVerify: a protected path is allowed; otherwise a
    public path that is neither the root nor an auth path is allowed;
    otherwise the decision is [Redirect] to [/org/{s}/dashboard] with an
    empty query.  In particular [/org/{s}/dashboard] is allowed, and [/],
    [/sign-in] and every path that is neither protected nor public get the
    dashboard redirect. *)
Theorem with_organization (s : string) (m : option string) :
  s <> "" ->
  let session := mkSession true (Some s) in
  let dashboard := Redirect ("/org/" ++ s ++ "/dashboard") [] in
  (forall path : string,
      isApiRoute path = false -> isSignInVerifyRoute path = false ->
      decide path session m
      = if isProtectedRoute path then Allow
        else if isPublicRoute path && negb (isRootRoute path)
                && negb (isAuthRoute path) then Allow
        else dashboard)
  /\ decide ("/org/" ++ s ++ "/dashboard") session m = Allow
  /\ decide "/" session m = dashboard
  /\ decide "/sign-in" session m = dashboard
  /\ (forall path : string,
         isApiRoute path = false -> isSignInVerifyRoute path = false ->
         isProtectedRoute path = false -> isPublicRoute path = false ->
         decide path session m = dashboard).
Proof.
  intros Hs session dashboard.
  assert (Hslug : JS.truthy (Some s) = true) by now apply truthy_some.
  assert (Hgen : forall path : string,
             isApiRoute path = false -> isSignInVerifyRoute path = false ->
             decide path session m
             = if isProtectedRoute path then Allow
               else if isPublicRoute path && negb (isRootRoute path)
                       && negb (isAuthRoute path) then Allow
               else dashboard).
  { intros path Hapi Hverify.
    exact (decide_with_organization path (Some s) m Hapi Hverify Hslug). }
  split; [exact Hgen|]. repeat split.
  - rewrite Hgen.
    + change ("/org/" ++ s ++ "/dashboard")
        with ("/org" ++ "/" ++ (s ++ "/dashboard")).
      rewrite isProtectedRoute_nested; [reflexivity | now left].
    + rewrite isApiRoute_eq. reflexivity.
    + rewrite isSignInVerifyRoute_eq. reflexivity.
  - now rewrite Hgen.
  - now rewrite Hgen.
  - intros path Hapi Hverify Hprot Hpub. now rewrite Hgen, Hprot, Hpub.
Qed.

Lemma with_organization_witness :
  decide "/org/test-org/dashboard" (mkSession true (Some "test-org")) None
  = Allow.
Proof.
  refine (proj1 (proj2 (with_organization "test-org" None _))).
  discriminate.
Defined.

(** ** Unauthenticated, non-public *)

(** C4 (unauthenticated, non-public).  For an unauthenticated session and a
    path in neither public nor api, [decide] returns [Redirect] to
    [/sign-in] whose query is the single pair [redirect = path]; a redirect
    with a non-empty query comes from this rule only; and the two
    signInVerify paths are public, so they need no exclusion here. *)
Theorem unauthenticated_non_public :
  (forall (path : string) (s : SessionState) (m : option string),
      authenticated s = false ->
      isPublicRoute path = false -> isApiRoute path = false ->
      decide path s m = Redirect "/sign-in" [("redirect", path)])
  /\ (forall (path : string) (s : SessionState) (m : option string)
             (target : string) (query : list (string * string)),
         decide path s m = Redirect target query -> query <> [] ->
         fires UnauthenticatedNonPublic path s = true
         /\ authenticated s = false
         /\ isPublicRoute path = false /\ isApiRoute path = false
         /\ target = "/sign-in" /\ query = [("redirect", path)])
  /\ (forall path : string,
         isSignInVerifyRoute path = true -> isPublicRoute path = true).
Proof.
  split; [|split].
  - intros path [a slug] m Ha Hpub Hapi. cbn [authenticated] in Ha. subst a.
    assert (Hverify : isSignInVerifyRoute path = false).
    { destruct (isSignInVerifyRoute path) eqn:E; [|reflexivity].
      apply signInVerify_public in E. congruence. }
    unfold decide. cbn [authenticated activeOrganizationSlug].
    now rewrite Hapi, Hverify, Hpub.
  - intros path s m target query Hd Hq.
    rewrite decide_firstMatch in Hd.
    destruct (firstMatch rules path s) eqn:Hr;
      apply firstMatch_fires in Hr; cbn [outcome] in Hd;
      repeat match type of Hd with
             | (if ?b then _ else _) = _ => destruct b
             end;
      try discriminate Hd;
      injection Hd as <- <-; try (exfalso; now apply Hq).
    split; [exact Hr|].
    destruct s as [a slug]. unfold fires, before, rules in Hr.
    cbn [firstn position forallb guard authenticated activeOrganizationSlug]
      in Hr.
    cbn [authenticated].
    destruct a, (isPublicRoute path), (isApiRoute path);
      cbn [andb negb] in Hr; try discriminate Hr.
    repeat split.
  - exact signInVerify_public.
Qed.

Lemma unauthenticated_non_public_witness :
  decide "/settings" (mkSession false None) None
  = Redirect "/sign-in" [("redirect", "/settings")].
Proof.
  exact (proj1 unauthenticated_non_public "/settings" (mkSession false None)
           None eq_refl eq_refl eq_refl).
Defined.

(** ** Authenticated, without an organization *)

(** C5 (authenticated, no organization).  For an authenticated session
    whose slug is [None], and a path in neither api nor signInVerify,
    [decide] returns [Allow] on the onboarding path, which is exactly
    [/onboarding], and [Redirect] to [/onboarding] with an empty query on
    every other path, public ones such as [/terms] and [/sign-in]
    included; on [/onboarding] itself there is no redirect. *)
Theorem no_organization (m : option string) :
  let session := mkSession true None in
  (forall path : string,
      isApiRoute path = false -> isSignInVerifyRoute path = false ->
      decide path session m
      = if isOnboardingRoute path then Allow else Redirect "/onboarding" [])
  /\ (forall path : string, isOnboardingRoute path = true <-> path = "/onboarding")
  /\ decide "/onboarding" session m = Allow
  /\ decide "/terms" session m = Redirect "/onboarding" []
  /\ decide "/sign-in" session m = Redirect "/onboarding" [].
Proof.
  intros session.
  assert (Hgen : forall path : string,
             isApiRoute path = false -> isSignInVerifyRoute path = false ->
             decide path session m
             = if isOnboardingRoute path then Allow
               else Redirect "/onboarding" []).
  { intros path Hapi Hverify. unfold decide, session.
    cbn [authenticated activeOrganizationSlug JS.truthy andb negb].
    rewrite Hapi, Hverify. now destruct (isOnboardingRoute path). }
  split; [exact Hgen|]. split.
  - intros path. now rewrite isOnboardingRoute_eq, String.eqb_eq.
  - repeat split; now rewrite Hgen.
Qed.

Lemma no_organization_witness :
  decide "/onboarding" (mkSession true None) None = Allow.
Proof.
  exact (proj1 (proj2 (proj2 (no_organization None)))).
Defined.

(** ** The matcher against its specification *)

(** C6, as the claim states it, fails on the path that spells a prefix
    pattern: the path made of [/sign-in] followed by the wildcard marker
    is neither [/sign-in] nor below [/sign-in/], yet the matcher built from
    the [/sign-in] prefix pattern accepts it, because every route is first
    compared with the path as it is. *)
Lemma matcher_accepts_pattern_text :
  createRouteMatcher (map patternText [PrefixOf "/sign-in"]) "/sign-in(.*)" = true
  /\ existsb (specMatches "/sign-in(.*)") [PrefixOf "/sign-in"] = false.
Proof. split; reflexivity. Qed.

(** C6 (route matcher), amended.  For every list of patterns in which the
    wildcard marker occurs only as the suffix of a prefix pattern, and every
    path, the matcher built from the list returns true iff some pattern
    matches, where an exact pattern [p] matches iff [path == p], and a
    prefix pattern with base [b] matches iff [path == b], or [path] starts
    with [b + "/"], or [path] is the text of the pattern itself, [b] followed by the
    marker; on a
    path that does not contain the marker the last case cannot arise.
    Consequently [/sign-in-extra] does not match the [/sign-in] prefix
    pattern while [/sign-in] and [/sign-in/verify] do. *)
Theorem matcher_semantics (pats : list RoutePattern) (path : string) :
  Forall plain pats ->
  let matcher := createRouteMatcher (map patternText pats) in
  (matcher path = true <-> exists r, In r pats /\ codeMatches path r = true)
  /\ (JS.includes path wildcard = false ->
      (matcher path = true <-> exists r, In r pats /\ specMatches path r = true))
  /\ createRouteMatcher ["/sign-in(.*)"] "/sign-in-extra" = false
  /\ createRouteMatcher ["/sign-in(.*)"] "/sign-in" = true
  /\ createRouteMatcher ["/sign-in(.*)"] "/sign-in/verify" = true.
Proof.
  intros Hplain matcher. unfold matcher.
  rewrite (createRouteMatcher_plain _ _ Hplain), existsb_exists.
  split; [reflexivity|]. split; [|repeat split].
  intros Hpath. split; intros [r [Hin Hr]]; exists r; split; trivial.
  - now rewrite <- (codeMatches_markerless _ _ Hpath).
  - now rewrite (codeMatches_markerless _ _ Hpath).
Qed.

Lemma matcher_semantics_witness :
  createRouteMatcher ["/"; "/sign-in(.*)"] "/sign-in/verify" = true
  <-> exists r, In r [Exact "/"; PrefixOf "/sign-in"]
                /\ codeMatches "/sign-in/verify" r = true.
Proof.
  refine (proj1 (matcher_semantics [Exact "/"; PrefixOf "/sign-in"]
                   "/sign-in/verify" _)).
  repeat constructor.
Defined.

(** ** The onboarding-revisit rule *)

(** C7 (rule 4 is redundant).  The onboarding-revisit rule fires only for
    an authenticated session without an organization ([proxy] takes a
    missing or empty slug for that), since an authenticated session with an
    organization is decided by one of the first three rules; and [proxy]
    with that rule deleted, its no-organization rule letting [/onboarding]
    through, returns the same decision as [decide] on every input. *)
Theorem onboarding_revisit_redundant
    (path : string) (s : SessionState) (m : option string) :
  (fires OnboardingRevisit path s = true ->
   authenticated s = true
   /\ (activeOrganizationSlug s = None \/ activeOrganizationSlug s = Some ""))
  /\ (authenticated s = true -> JS.truthy (activeOrganizationSlug s) = true ->
      fires ApiBypass path s = true \/ fires VerificationGate path s = true
      \/ fires WithOrganization path s = true)
  /\ decideWithoutOnboardingRevisit path s m = decide path s m.
Proof.
  destruct s as [a slug]. cbn [authenticated activeOrganizationSlug].
  split; [|split].
  - unfold fires, before, rules.
    cbn [firstn position forallb guard authenticated activeOrganizationSlug].
    intros H. rewrite <- truthy_false.
    destruct a, (JS.truthy slug); cbn [andb negb] in H |- *;
      rewrite ?andb_false_r in H; try discriminate H; now split.
  - intros -> Hslug. unfold fires, before, rules.
    cbn [firstn position forallb guard authenticated activeOrganizationSlug].
    rewrite Hslug.
    destruct (isApiRoute path), (isSignInVerifyRoute path); cbn [andb negb];
      auto.
  - unfold decideWithoutOnboardingRevisit, decide.
    cbn [authenticated activeOrganizationSlug].
    split_conditions path a slug; reflexivity.
Qed.

(** ** Unauthenticated sessions and the slug *)

(** C8 (an unauthenticated session's slug is ignored).  With
    [authenticated = false], [decide] returns the same decision whatever the
    slug is, and neither organization rule fires. *)
Theorem unauthenticated_slug_ignored
    (path : string) (m slug slug' : option string) :
  decide path (mkSession false slug) m = decide path (mkSession false slug') m
  /\ fires WithOrganization path (mkSession false slug) = false
  /\ fires NoOrganization path (mkSession false slug) = false.
Proof.
  split; [|split].
  - unfold decide. cbn [authenticated activeOrganizationSlug andb negb].
    reflexivity.
  - unfold fires. cbn [guard authenticated andb]. reflexivity.
  - unfold fires. cbn [guard authenticated andb]. reflexivity.
Qed.

(** ** Totality and determinism *)

(** C9 (determinism and totality).  Every input has exactly one decision,
    which is [Allow] or a [Redirect]; equal inputs give equal decisions;
    and on every input exactly one rule fires, the one whose outcome
    [decide] returns. *)
Theorem decide_total_deterministic
    (path : string) (s : SessionState) (m : option string) :
  (exists d : Decision,
      decide path s m = d
      /\ (d = Allow \/ exists target query, d = Redirect target query)
      /\ forall d' : Decision, decide path s m = d' -> d' = d)
  /\ (forall (path' : string) (s' : SessionState) (m' : option string),
         path' = path -> s' = s -> m' = m ->
         decide path' s' m' = decide path s m)
  /\ (exists r : Rule,
         fires r path s = true
         /\ decide path s m = outcome r path s m
         /\ forall r' : Rule, fires r' path s = true -> r' = r).
Proof.
  split; [|split].
  - exists (decide path s m). split; [reflexivity|]. split.
    + destruct (decide path s m) as [|target query]; [now left | right].
      now exists target, query.
    + intros d' <-. reflexivity.
  - intros path' s' m' -> -> ->. reflexivity.
  - exists (firstMatch rules path s). split; [|split].
    + now apply firstMatch_fires.
    + apply decide_firstMatch.
    + intros r' Hr'. symmetry. now apply firstMatch_fires.
Qed.

(** ** The URL of a redirect *)

Section UrlFacts.

Lemma append_assoc3 (a b c : string) : (a ++ b) ++ c = a ++ b ++ c.
Proof.
  induction a as [|x a IH]; cbn [append]; [reflexivity | now rewrite IH].
Qed.

Lemma pathState_copied (x rest : string) (path : list string) (buffer : string) :
  forallb (fun c => match URL.kind c with
                    | URL.Copied => negb (Ascii.eqb c "%")
                    | _ => false
                    end) (list_ascii_of_string x) = true ->
  URL.pathState (x ++ rest) path buffer
  = URL.pathState rest path (buffer ++ x).
Proof.
  revert buffer. induction x as [|c x IH]; intros buffer H.
  - cbn [append].
    assert (Hb : buffer ++ "" = buffer).
    { induction buffer as [|b buffer IHb]; cbn [append]; now rewrite ?IHb. }
    now rewrite Hb.
  - cbn [list_ascii_of_string forallb] in H.
    apply andb_true_iff in H. destruct H as [Hc Hx].
    cbn [append URL.pathState].
    destruct (URL.kind c); try discriminate Hc.
    rewrite (IH _ Hx), append_assoc3. reflexivity.
Qed.

Lemma dots_zero (x : string) : URL.dots x = Some 0 -> x = "".
Proof.
  destruct x as [|c x]; [reflexivity|]. cbn [URL.dots].
  destruct (Ascii.eqb c ".").
  - destruct (URL.dots x); discriminate.
  - destruct (Ascii.eqb c "%"); [|discriminate].
    destruct x as [|d [|e x]]; try discriminate.
    destruct (Ascii.eqb d "2" && URL.isOneOf e ["e"; "E"]%char);
      [|discriminate].
    destruct (URL.dots x); discriminate.
Qed.

Lemma dots_plain_succ (x : string) (n : nat) :
  forallb (fun c => match URL.kind c with
                    | URL.Copied => negb (Ascii.eqb c "%")
                    | _ => false
                    end) (list_ascii_of_string x) = true ->
  URL.dots x = Some (S n) ->
  exists x', x = String "." x' /\ URL.dots x' = Some n
             /\ forallb (fun c => match URL.kind c with
                                  | URL.Copied => negb (Ascii.eqb c "%")
                                  | _ => false
                                  end) (list_ascii_of_string x') = true.
Proof.
  destruct x as [|c x]; [discriminate|].
  cbn [list_ascii_of_string forallb URL.dots]. intros H Hd.
  apply andb_true_iff in H. destruct H as [Hc Hx].
  destruct (Ascii.eqb c ".") eqn:Edot.
  - apply Ascii.eqb_eq in Edot. subst c. exists x. repeat split; trivial.
    destruct (URL.dots x) as [k|]; [|discriminate Hd].
    cbn [option_map] in Hd. now injection Hd as ->.
  - destruct (Ascii.eqb c "%"); [|discriminate Hd].
    destruct (URL.kind c); discriminate Hc.
Qed.

Lemma plainSegment_not_dot (x : string) :
  URL.plainSegment x = true ->
  URL.isDoubleDot x = false /\ URL.isSingleDot x = false.
Proof.
  unfold URL.plainSegment. intros H.
  apply andb_true_iff in H. destruct H as [H H2].
  apply andb_true_iff in H. destruct H as [H H1].
  apply negb_true_iff, String.eqb_neq in H1.
  apply negb_true_iff, String.eqb_neq in H2.
  unfold URL.isDoubleDot, URL.isSingleDot.
  destruct (URL.dots x) as [[|[|[|n]]]|] eqn:Hd; try (split; reflexivity).
  - exfalso. apply H1.
    destruct (dots_plain_succ _ _ H Hd) as [x' [-> [Hd' _]]].
    now rewrite (dots_zero _ Hd').
  - exfalso. apply H2.
    destruct (dots_plain_succ _ _ H Hd) as [x' [-> [Hd' H']]].
    destruct (dots_plain_succ _ _ H' Hd') as [x'' [-> [Hd'' _]]].
    now rewrite (dots_zero _ Hd'').
Qed.

Lemma closeSegment_plain (path : list string) (x : string) (slash : bool) :
  URL.plainSegment x = true ->
  URL.closeSegment path x slash = (path ++ [x])%list.
Proof.
  intros H. destruct (plainSegment_not_dot x H) as [H2 H1].
  unfold URL.closeSegment. now rewrite H2, H1.
Qed.

(** The dashboard of a plain slug resolves to itself. *)
Lemma parse_dashboard (x : string) :
  URL.plainSegment x = true ->
  URL.parse ("/org/" ++ x ++ "/dashboard")
  = Some (URL.mkParsed ("/org/" ++ x ++ "/dashboard") "").
Proof.
  intros H.
  assert (Hx : forallb (fun c => match URL.kind c with
                                 | URL.Copied => negb (Ascii.eqb c "%")
                                 | _ => false
                                 end) (list_ascii_of_string x) = true).
  { unfold URL.plainSegment in H.
    apply andb_true_iff in H. destruct H as [H _].
    now apply andb_true_iff in H. }
  change ("/org/" ++ x ++ "/dashboard")
    with (String "/" ("org/" ++ (x ++ "/dashboard"))).
  unfold URL.parse.
  change (URL.pathState ("org/" ++ x ++ "/dashboard") [] "")
    with (URL.pathState (x ++ "/dashboard") ["org"] "").
  rewrite (pathState_copied _ _ _ _ Hx).
  change (URL.pathState "/dashboard" ["org"] ("" ++ x))
    with (URL.pathState "dashboard" (URL.closeSegment ["org"] x true) "").
  rewrite (closeSegment_plain _ _ _ H).
  reflexivity.
Qed.

End UrlFacts.

(** ** No redirect to the requested path *)





(** * Further properties of the matcher and of [proxy] *)

Section CategoryFacts.

Lemma startsWith_cons_inv (p pre : string) (a : ascii) :
  JS.startsWith p (String a pre) = true ->
  exists p', p = String a p' /\ JS.startsWith p' pre = true.
Proof.
  destruct p as [|b p']; cbn [JS.startsWith]; intros H; [discriminate H|].
  apply andb_true_iff in H. destruct H as [Hab H].
  apply Ascii.eqb_eq in Hab. subst b. now exists p'.
Qed.

Lemma startsWith_app_l (p pre rest : string) :
  JS.startsWith p pre = true -> JS.startsWith (p ++ rest) pre = true.
Proof.
  revert p. induction pre as [|a pre IH]; intros p H.
  - reflexivity.
  - apply startsWith_cons_inv in H. destruct H as [p' [-> H]].
    cbn [append JS.startsWith]. now rewrite Ascii.eqb_refl, (IH _ H).
Qed.

Lemma isPublicRoute_eq (p : string) :
  isPublicRoute p
  = existsb (codeMatches p)
      [ Exact "/"; Exact "/home"; PrefixOf "/sign-in"; PrefixOf "/sign-up";
        Exact "/privacy"; Exact "/terms"; Exact "/robots.txt";
        Exact "/sitemap.xml"; Exact "/favicon.ico"; Exact "/favicon.svg";
        Exact "/favicon-96x96.png"; Exact "/apple-touch-icon.png";
        Exact "/opengraph-image.png" ].
Proof.
  match goal with
  | |- _ = existsb _ ?pats => apply (createRouteMatcher_plain pats p)
  end.
  repeat constructor.
Qed.

Lemma isProtectedRoute_eq (p : string) :
  isProtectedRoute p
  = existsb (codeMatches p) [PrefixOf "/org"; PrefixOf "/settings"].
Proof.
  match goal with
  | |- _ = existsb _ ?pats => apply (createRouteMatcher_plain pats p)
  end.
  repeat constructor.
Qed.

Lemma isAuthRoute_eq (p : string) :
  isAuthRoute p
  = existsb (codeMatches p) [PrefixOf "/sign-in"; PrefixOf "/sign-up"].
Proof.
  match goal with
  | |- _ = existsb _ ?pats => apply (createRouteMatcher_plain pats p)
  end.
  repeat constructor.
Qed.

Lemma isRootRoute_eq (p : string) : isRootRoute p = (p =? "/").
Proof.
  change (isRootRoute p)
    with (createRouteMatcher (map patternText [Exact "/"]) p).
  rewrite createRouteMatcher_plain by (repeat constructor).
  cbn [existsb codeMatches]. apply orb_false_r.
Qed.

End CategoryFacts.

(** Turns [H : category p = true], already rewritten into a disjunction of
    comparisons, into one goal per pattern, with [p] replaced by what the
    pattern says of it. *)
Ltac expose_prefix H :=
  repeat (apply startsWith_cons_inv in H;
          let p' := fresh "rest" in
          destruct H as [p' [-> H]]).

Ltac pattern_cases H :=
  cbn [existsb codeMatches] in H; unfold wildcard in H; cbn [append] in H;
  repeat (apply orb_true_iff in H; destruct H as [H | H]);
  try discriminate H;
  first [ apply String.eqb_eq in H; subst | expose_prefix H ].

Section CategoryOrder.

Lemma protected_separate (p : string) :
  isProtectedRoute p = true ->
  isPublicRoute p = false /\ isApiRoute p = false
  /\ isOnboardingRoute p = false /\ isSignInVerifyRoute p = false.
Proof.
  intros H. rewrite isProtectedRoute_eq in H.
  pattern_cases H; repeat split; reflexivity.
Qed.

Lemma api_separate (p : string) :
  isApiRoute p = true ->
  isPublicRoute p = false /\ isOnboardingRoute p = false
  /\ isProtectedRoute p = false.
Proof.
  intros H. rewrite isApiRoute_eq in H.
  repeat (apply orb_true_iff in H; destruct H as [H | H]);
    first [ apply String.eqb_eq in H; subst | expose_prefix H ];
    repeat split; reflexivity.
Qed.

Lemma onboarding_not_public (p : string) :
  isOnboardingRoute p = true -> isPublicRoute p = false.
Proof.
  rewrite isOnboardingRoute_eq, String.eqb_eq. now intros ->.
Qed.

Lemma auth_public (p : string) :
  isAuthRoute p = true -> isPublicRoute p = true.
Proof.
  intros H. rewrite isAuthRoute_eq in H. pattern_cases H; reflexivity.
Qed.

Lemma signInVerify_auth (p : string) :
  isSignInVerifyRoute p = true -> isAuthRoute p = true.
Proof.
  intros H. apply signInVerify_cases in H. now destruct H as [-> | ->].
Qed.

Lemma root_public (p : string) :
  isRootRoute p = true -> isPublicRoute p = true.
Proof. rewrite isRootRoute_eq, String.eqb_eq. now intros ->. Qed.

End CategoryOrder.

(** X1.  A matcher depends on the set of its routes only: two lists with
    the same routes, in any order and with any repetitions, accept the same
    paths. *)
Theorem matcher_order_irrelevant (routes routes' : list string) (p : string) :
  (forall r : string, In r routes <-> In r routes') ->
  createRouteMatcher routes p = createRouteMatcher routes' p.
Proof.
  intros Hsame. unfold createRouteMatcher.
  apply eq_true_iff_eq. rewrite !existsb_exists.
  split; intros [r [Hin Hr]]; exists r; split; trivial; now apply Hsame.
Qed.

Lemma matcher_order_irrelevant_witness :
  createRouteMatcher ["/org(.*)"; "/settings(.*)"] "/settings/billing"
  = createRouteMatcher ["/settings(.*)"; "/org(.*)"; "/settings(.*)"]
      "/settings/billing".
Proof.
  apply (matcher_order_irrelevant
           ["/org(.*)"; "/settings(.*)"]
           ["/settings(.*)"; "/org(.*)"; "/settings(.*)"]).
  intros r. cbn [In]. tauto.
Defined.

(** X2.  The categories are nested as their names suggest, on every path:
    the root is public, a sign-in verification path is an auth path, and
    an auth path is public. *)
Theorem categories_nested (p : string) :
  (isRootRoute p = true -> isPublicRoute p = true)
  /\ (isSignInVerifyRoute p = true -> isAuthRoute p = true)
  /\ (isAuthRoute p = true -> isPublicRoute p = true).
Proof.
  split; [apply root_public | split; [apply signInVerify_auth | apply auth_public]].
Qed.

(** X3.  No path is in two of the categories protected, api, onboarding
    and public: a protected path is in none of the other three, an api
    path is neither public nor onboarding, and the onboarding path is not
    public. *)
Theorem categories_disjoint (p : string) :
  (isProtectedRoute p = true ->
   isPublicRoute p = false /\ isApiRoute p = false
   /\ isOnboardingRoute p = false)
  /\ (isApiRoute p = true ->
      isPublicRoute p = false /\ isOnboardingRoute p = false)
  /\ (isOnboardingRoute p = true -> isPublicRoute p = false).
Proof.
  split; [|split].
  - intros H. destruct (protected_separate p H) as [H1 [H2 [H3 _]]]. auto.
  - intros H. destruct (api_separate p H) as [H1 [H2 _]]. auto.
  - apply onboarding_not_public.
Qed.

Section DecisionFacts.

Lemma startsWith_app_both (a x y : string) :
  JS.startsWith (a ++ x) (a ++ y) = JS.startsWith x y.
Proof.
  induction a as [|c a IH]; cbn [append JS.startsWith].
  - reflexivity.
  - now rewrite Ascii.eqb_refl, IH.
Qed.

Lemma decide_dashboard (x : string) (slug m : option string) :
  JS.truthy slug = true ->
  decide ("/org/" ++ x ++ "/dashboard") (mkSession true slug) m = Allow.
Proof.
  intros Hslug.
  rewrite decide_with_organization; [|reflexivity|reflexivity|exact Hslug].
  change ("/org/" ++ x ++ "/dashboard")
    with ("/org" ++ "/" ++ (x ++ "/dashboard")).
  rewrite isProtectedRoute_nested; [reflexivity | now left].
Qed.

(** Where a redirect goes and from which kind of session. *)
Lemma redirect_targets (p : string) (a : bool) (slug m : option string)
    (t : string) (q : list (string * string)) :
  decide p (mkSession a slug) m = Redirect t q ->
  (t = "/sign-in" /\ q = [] /\ isSignInVerifyRoute p = true)
  \/ (t = "/sign-in" /\ q = [("redirect", p)] /\ a = false)
  \/ (t = "/onboarding" /\ q = [] /\ a = true /\ JS.truthy slug = false)
  \/ (t = "/org/" ++ JS.interpolate slug ++ "/dashboard" /\ q = []
      /\ a = true /\ JS.truthy slug = true).
Proof.
  unfold decide. cbn [authenticated activeOrganizationSlug].
  destruct (isApiRoute p); [discriminate|].
  destruct (isSignInVerifyRoute p).
  { destruct (JS.truthy m); [discriminate|].
    intros H. injection H as <- <-. auto. }
  destruct a, (JS.truthy slug); cbn [andb negb].
  - destruct (isProtectedRoute p); [discriminate|].
    destruct (isPublicRoute p && negb (isRootRoute p) && negb (isAuthRoute p));
      [discriminate|].
    intros H. injection H as <- <-. right. right. right. auto.
  - destruct (isOnboardingRoute p); cbn [negb]; [discriminate|].
    intros H. injection H as <- <-. right. right. left. auto.
  - destruct (isPublicRoute p); cbn [negb]; [discriminate|].
    intros H. injection H as <- <-. right. left. auto.
  - destruct (isPublicRoute p); cbn [negb]; [discriminate|].
    intros H. injection H as <- <-. right. left. auto.
Qed.

Lemma decide_sign_in (a : bool) (slug m : option string) :
  decide "/sign-in" (mkSession a slug) m
  = if a then
      if JS.truthy slug
      then Redirect ("/org/" ++ JS.interpolate slug ++ "/dashboard") []
      else Redirect "/onboarding" []
    else Allow.
Proof.
  unfold decide. cbn [authenticated activeOrganizationSlug].
  change (isApiRoute "/sign-in") with false.
  change (isSignInVerifyRoute "/sign-in") with false.
  change (isProtectedRoute "/sign-in") with false.
  change (isPublicRoute "/sign-in") with true.
  change (isRootRoute "/sign-in") with false.
  change (isAuthRoute "/sign-in") with true.
  change (isOnboardingRoute "/sign-in") with false.
  now destruct a, (JS.truthy slug).
Qed.

Lemma decide_onboarding (slug m : option string) :
  JS.truthy slug = false ->
  decide "/onboarding" (mkSession true slug) m = Allow.
Proof.
  intros Hslug. unfold decide. cbn [authenticated activeOrganizationSlug].
  change (isApiRoute "/onboarding") with false.
  change (isSignInVerifyRoute "/onboarding") with false.
  change (isOnboardingRoute "/onboarding") with true.
  now rewrite Hslug.
Qed.

Lemma parse_redirect_target (p : string) (a : bool) (slug m : option string)
    (t : string) (q : list (string * string)) :
  decide p (mkSession a slug) m = Redirect t q ->
  plainSlug slug = true ->
  URL.parse t = Some (URL.mkParsed t "").
Proof.
  intros H Hplain. apply redirect_targets in H.
  destruct H as [[-> _] | [[-> _] | [[-> _] | [-> [_ [_ Hslug]]]]]];
    try reflexivity.
  destruct slug as [x|]; [|discriminate Hslug].
  now apply parse_dashboard.
Qed.

End DecisionFacts.

(** X4.  A protected path is allowed to an authenticated session with an
    organization and to no other: without a session the request is sent to
    [/sign-in] with the path as [redirect] parameter, and an authenticated
    session without an organization is sent to [/onboarding]. *)
Theorem protected_requires_organization
    (p : string) (s : SessionState) (m : option string) :
  isProtectedRoute p = true ->
  (decide p s m = Allow <->
   authenticated s = true /\ JS.truthy (activeOrganizationSlug s) = true)
  /\ (authenticated s = false ->
      decide p s m = Redirect "/sign-in" [("redirect", p)])
  /\ (authenticated s = true ->
      JS.truthy (activeOrganizationSlug s) = false ->
      decide p s m = Redirect "/onboarding" []).
Proof.
  intros H. destruct (protected_separate p H) as [Hpub [Hapi [Hon Hver]]].
  destruct s as [a slug]. unfold decide.
  cbn [authenticated activeOrganizationSlug].
  rewrite Hapi, Hver, H, Hpub, Hon.
  destruct a, (JS.truthy slug); cbn [andb negb]; repeat split;
    try reflexivity; try discriminate; intros []; discriminate.
Qed.

Lemma protected_requires_organization_witness :
  decide "/org/acme/orders" (mkSession false None) None
  = Redirect "/sign-in" [("redirect", "/org/acme/orders")].
Proof.
  exact (proj1 (proj2 (protected_requires_organization "/org/acme/orders"
                         (mkSession false None) None eq_refl)) eq_refl).
Defined.

(** X5.  What a request without a session is allowed: an api path, a
    sign-in verification path when the attempt cookie is set to a
    non-empty value, and any other public path; nothing else. *)
Theorem anonymous_allowed_iff (p : string) (slug m : option string) :
  decide p (mkSession false slug) m = Allow <->
  isApiRoute p = true
  \/ (isSignInVerifyRoute p = true /\ JS.truthy m = true)
  \/ (isSignInVerifyRoute p = false /\ isPublicRoute p = true).
Proof.
  unfold decide. cbn [authenticated activeOrganizationSlug andb negb].
  destruct (isApiRoute p); [intuition|].
  destruct (isSignInVerifyRoute p).
  { destruct (JS.truthy m); intuition discriminate. }
  destruct (isPublicRoute p); cbn [negb]; intuition discriminate.
Qed.

(** X6.  The attempt cookie is read by the verification gate only: off the
    sign-in verification paths the decision does not depend on it. *)
Theorem attempt_marker_only_at_gate
    (p : string) (s : SessionState) (m m' : option string) :
  isSignInVerifyRoute p = false -> decide p s m = decide p s m'.
Proof.
  intros H. unfold decide. now rewrite H.
Qed.

Lemma attempt_marker_only_at_gate_witness :
  decide "/settings" (mkSession true None) (Some "a@b.c")
  = decide "/settings" (mkSession true None) None.
Proof.
  exact (attempt_marker_only_at_gate "/settings" (mkSession true None)
           (Some "a@b.c") None eq_refl).
Defined.

(** X7.  Redirects settle.  For a slug that is an ordinary path segment
    (or no slug): when a request is redirected and the client asks for the
    pathname of the redirect URL with the same session and cookie, that
    path is allowed, or it redirects once more to a URL whose pathname is
    allowed; no chain of redirects is longer than two. *)
Theorem redirects_settle
    (p : string) (s : SessionState) (m : option string)
    (t : string) (q : list (string * string)) :
  decide p s m = Redirect t q ->
  plainSlug (activeOrganizationSlug s) = true ->
  exists location : URL.Parsed,
    URL.parse t = Some location
    /\ (decide (URL.pathname location) s m = Allow
        \/ exists t' q' location',
             decide (URL.pathname location) s m = Redirect t' q'
             /\ URL.parse t' = Some location'
             /\ decide (URL.pathname location') s m = Allow).
Proof.
  destruct s as [a slug]. cbn [activeOrganizationSlug]. intros H Hplain.
  exists (URL.mkParsed t ""). split; [exact (parse_redirect_target _ _ _ _ _ _ H Hplain)|].
  cbn [URL.pathname].
  apply redirect_targets in H.
  assert (Hsignin :
    decide "/sign-in" (mkSession a slug) m = Allow
    \/ exists t' q' location',
         decide "/sign-in" (mkSession a slug) m = Redirect t' q'
         /\ URL.parse t' = Some location'
         /\ decide (URL.pathname location') (mkSession a slug) m = Allow).
  { destruct (decide "/sign-in" (mkSession a slug) m) as [|t' q'] eqn:Hd;
      [now left | right].
    exists t', q', (URL.mkParsed t' "").
    split; [reflexivity|].
    split; [exact (parse_redirect_target _ _ _ _ _ _ Hd Hplain)|].
    cbn [URL.pathname]. rewrite decide_sign_in in Hd.
    destruct a; [|discriminate Hd].
    destruct (JS.truthy slug) eqn:Hslug; injection Hd as <- <-.
    - now apply decide_dashboard.
    - now apply decide_onboarding. }
  destruct H as [[-> _] | [[-> _] | [[-> [_ [-> Hslug]]] | [-> [_ [-> Hslug]]]]]].
  - exact Hsignin.
  - exact Hsignin.
  - left. now apply decide_onboarding.
  - left. now apply decide_dashboard.
Qed.

Lemma redirects_settle_witness :
  exists location : URL.Parsed,
    URL.parse "/sign-in" = Some location
    /\ (decide (URL.pathname location) (mkSession true (Some "acme")) None
        = Allow
        \/ exists t' q' location',
             decide (URL.pathname location) (mkSession true (Some "acme")) None
             = Redirect t' q'
             /\ URL.parse t' = Some location'
             /\ decide (URL.pathname location')
                  (mkSession true (Some "acme")) None = Allow).
Proof.
  exact (redirects_settle "/sign-in/verify" (mkSession true (Some "acme")) None
           "/sign-in" [] eq_refl eq_refl).
Defined.

(** X8.  Two returns of [proxy] that never serve the case their comment
    names.  The last [return] (the fallback) is reached only without a
    session, on a public path, never for an authenticated user; and when the
    no-organization rule fires the path is not the onboarding path, so the
    rule always redirects to [/onboarding] and its own [Allow] is never
    returned. *)
Theorem unreachable_returns (p : string) (s : SessionState) :
  (fires Fallback p s = true ->
   authenticated s = false /\ isPublicRoute p = true)
  /\ (fires NoOrganization p s = true ->
      isOnboardingRoute p = false
      /\ forall m : option string,
           decide p s m = Redirect "/onboarding" []).
Proof.
  destruct s as [a slug]. split; intros H.
  - unfold fires, before, rules in H.
    cbn [firstn position forallb guard authenticated activeOrganizationSlug]
      in H.
    cbn [authenticated].
    destruct a, (JS.truthy slug), (isPublicRoute p);
      cbn [andb negb] in H; rewrite ?andb_false_r in H;
      try discriminate H; now split.
  - assert (Hon : isOnboardingRoute p = false).
    { unfold fires, before, rules in H.
      cbn [firstn position forallb guard authenticated activeOrganizationSlug]
        in H.
      destruct a, (JS.truthy slug), (isOnboardingRoute p);
        cbn [andb negb] in H; rewrite ?andb_false_r in H;
        try discriminate H; reflexivity. }
    split; [exact Hon|]. intros m.
    apply firstMatch_fires in H.
    rewrite decide_firstMatch, H. cbn [outcome]. now rewrite Hon.
Qed.

(** X9.  What [proxy] answers by kind of request.  Without a session the
    answer is [Allow] or a redirect whose URL has pathname [/sign-in],
    with no query or with the single parameter [redirect], never
    [/onboarding] or a dashboard.  With a session whose slug is an ordinary
    path segment (or missing), the URL of a redirect carries no query, and
    its pathname is [/sign-in] only when the verification gate sent it. *)
Theorem proxy_by_session (req : NextRequest) :
  match sessionFromCookie req with
  | None =>
      proxy req = Allow
      \/ exists (q : list (string * string)) (location : URL.Parsed),
           proxy req = Redirect "/sign-in" q
           /\ URL.parse "/sign-in" = Some location
           /\ URL.pathname location = "/sign-in"
           /\ URL.search location = ""
           /\ (q = [] \/ q = [("redirect", nextUrlPathname req)])
  | Some session =>
      plainSlug (sessionSlug session) = true ->
      forall (t : string) (q : list (string * string)),
        proxy req = Redirect t q ->
        q = []
        /\ exists location : URL.Parsed,
             URL.parse t = Some location
             /\ URL.search location = ""
             /\ (URL.pathname location = "/sign-in" ->
                 isSignInVerifyRoute (nextUrlPathname req) = true)
  end.
Proof.
  unfold proxy, sessionState.
  destruct (sessionFromCookie req) as [sess|].
  - intros Hplain t q H.
    pose proof (parse_redirect_target _ _ _ _ _ _ H Hplain) as Hparse.
    apply redirect_targets in H.
    assert (Hloc : forall gate : Prop,
               (t = "/sign-in" -> gate) ->
               exists location : URL.Parsed,
                 URL.parse t = Some location
                 /\ URL.search location = ""
                 /\ (URL.pathname location = "/sign-in" -> gate)).
    { intros gate Hgate. exists (URL.mkParsed t ""). now repeat split. }
    destruct H as [[-> [-> H]] | [[_ [_ H]] | [[-> [-> _]] | [-> [-> _]]]]].
    + split; [reflexivity|]. apply Hloc. now intros _.
    + discriminate H.
    + split; [reflexivity|]. apply Hloc. discriminate.
    + split; [reflexivity|]. apply Hloc. discriminate.
  - destruct (decide (nextUrlPathname req) (mkSession false None)
                (signInAttemptEmail req)) as [|t q] eqn:H; [now left | right].
    apply redirect_targets in H.
    destruct H as [[-> [-> _]] | [[-> [-> _]] | [[_ [_ [H _]]] | [_ [_ [H _]]]]]];
      try discriminate H;
      eexists _, (URL.mkParsed "/sign-in" ""); repeat split; auto.
Qed.

(** X10.  A path a matcher accepts without being spelled in its list of
    routes is accepted together with every path below it. *)
Theorem nested_paths_accepted (routes : list string) (p rest : string) :
  createRouteMatcher routes p = true ->
  ~ In p routes ->
  createRouteMatcher routes (p ++ "/" ++ rest) = true.
Proof.
  unfold createRouteMatcher. rewrite !existsb_exists.
  intros [r [Hin Hr]] Hnot. exists r. split; [exact Hin|].
  unfold routeMatches in Hr |- *.
  destruct (r =? p) eqn:Hrp.
  { apply String.eqb_eq in Hrp. subst r. contradiction. }
  destruct (JS.includes r wildcard); [|discriminate Hr].
  destruct (r =? p ++ "/" ++ rest); [reflexivity|].
  cbv zeta in Hr |- *.
  apply orb_true_iff. right.
  apply orb_true_iff in Hr. destruct Hr as [Hr | Hr].
  - apply String.eqb_eq in Hr. subst p.
    now rewrite startsWith_app_both.
  - change (p ++ "/" ++ rest) with (p ++ ("/" ++ rest)).
    now apply startsWith_app_l.
Qed.

Lemma nested_paths_accepted_witness :
  isProtectedRoute ("/org/acme" ++ "/" ++ "orders") = true.
Proof.
  apply (nested_paths_accepted ["/org(.*)"; "/settings(.*)"] "/org/acme" "orders").
  - reflexivity.
  - cbn [In]. intros [H | [H | H]]; try discriminate H. exact H.
Defined.


(** * Profile initials *)

Section InitialsFacts.

Import Profile.

Lemma split_not_nil (s : string) (sep : ascii) : split s sep <> [].
Proof.
  destruct s as [|c s]; cbn [split]; [discriminate|].
  destruct (Ascii.eqb c sep); [discriminate|].
  destruct (split s sep); discriminate.
Qed.

Lemma split_app_sep (a b : string) (sep : ascii) :
  split (a ++ String sep b) sep = (split a sep ++ split b sep)%list.
Proof.
  induction a as [|c a IH]; cbn [append split].
  - now rewrite Ascii.eqb_refl.
  - destruct (Ascii.eqb c sep).
    + now rewrite IH.
    + rewrite IH. pose proof (split_not_nil a sep) as Hne.
      destruct (split a sep) as [|w ws]; [contradiction|reflexivity].
Qed.

Lemma split_word (w : string) (sep : ascii) :
  JS.includes w (String sep EmptyString) = false -> split w sep = [w].
Proof.
  induction w as [|c w IH]; intros H.
  - reflexivity.
  - apply includes_cons_false in H. destruct H as [Hc Hw].
    cbn [JS.startsWith] in Hc. rewrite andb_true_r in Hc.
    cbn [split]. rewrite Ascii.eqb_sym, Hc. now rewrite (IH Hw).
Qed.

Lemma join_app (xs ys : list (option ascii)) :
  join (xs ++ ys)%list = join xs ++ join ys.
Proof.
  induction xs as [|[c|] xs IH]; cbn [app join append]; now rewrite ?IH.
Qed.

Lemma firstLetters_space (a b : string) :
  firstLetters (a ++ " " ++ b) = firstLetters a ++ firstLetters b.
Proof.
  unfold firstLetters. change (a ++ " " ++ b) with (a ++ String " " b).
  now rewrite split_app_sep, map_app, join_app.
Qed.

Lemma firstLetters_word (w : string) :
  JS.includes w " " = false -> firstLetters w = join [first w].
Proof.
  intros H. unfold firstLetters. now rewrite (split_word _ _ H).
Qed.

Lemma firstLetters_blank (n : nat) : firstLetters (blank n) = "".
Proof.
  induction n as [|n IH]; [reflexivity|].
  change (blank (S n)) with ("" ++ " " ++ blank n).
  now rewrite firstLetters_space, IH.
Qed.

Lemma sliceTo_length (s : string) (n : nat) :
  String.length (sliceTo s n) <= n.
Proof.
  revert s. induction n as [|n IH]; intros [|c s]; cbn [sliceTo String.length];
    try lia.
  specialize (IH s). lia.
Qed.

End InitialsFacts.

(** X11.  The letters [getInitials] collects from a display name are the
    first characters of its words: for words without a space, joined by
    single spaces, the first character of each word in order, an empty
    word contributing nothing. *)
Theorem first_letters_of_words (words : list string) :
  Forall (fun w => JS.includes w " " = false) words ->
  Profile.firstLetters (String.concat " " words)
  = Profile.join (map Profile.first words).
Proof.
  induction 1 as [|w ws Hw Hws IH].
  - reflexivity.
  - destruct ws as [|w' ws].
    + now apply firstLetters_word.
    + change (String.concat " " (w :: w' :: ws))
        with (w ++ " " ++ String.concat " " (w' :: ws)).
      rewrite firstLetters_space, IH, (firstLetters_word _ Hw).
      change (map Profile.first (w :: w' :: ws))
        with ([Profile.first w] ++ map Profile.first (w' :: ws))%list.
      now rewrite join_app.
Qed.

Lemma first_letters_of_words_witness :
  Profile.firstLetters (String.concat " " ["ada"; ""; "king"; "lovelace"])
  = Profile.join (map Profile.first ["ada"; ""; "king"; "lovelace"]).
Proof.
  apply (first_letters_of_words ["ada"; ""; "king"; "lovelace"]).
  repeat constructor.
Defined.

(** X12.  For a non-empty display name [getInitials] returns a string of
    at most two characters, the start of the upper-cased first letters,
    whatever the email is; and spaces before or after the name do not
    change the result. *)
Theorem initials_of_display_name
    (toUpperCase : string -> string) (name mail : string) :
  name <> "" ->
  let initials n :=
    Profile.getInitials toUpperCase
      (Some (Profile.mkUserData (Some n) mail)) in
  (exists i : string,
      initials name = Profile.Returned (Some i)
      /\ String.length i <= 2
      /\ i = Profile.sliceTo (toUpperCase (Profile.firstLetters name)) 2)
  /\ initials (" " ++ name) = initials name
  /\ initials (name ++ " ") = initials name.
Proof.
  intros Hname initials. unfold initials, Profile.getInitials.
  cbn [Profile.displayName].
  apply String.eqb_neq in Hname. rewrite Hname.
  split; [|split].
  - eexists. split; [reflexivity|]. split; [apply sliceTo_length | reflexivity].
  - change (" " ++ name) with ("" ++ " " ++ name).
    rewrite firstLetters_space.
    change ("" ++ " " ++ name =? "") with false. reflexivity.
  - replace (name ++ " ") with (name ++ " " ++ "") by reflexivity.
    rewrite firstLetters_space.
    replace (Profile.firstLetters "") with "" by reflexivity.
    assert (Hne : (name ++ " " ++ "" =? "") = false).
    { apply String.eqb_neq. apply String.eqb_neq in Hname.
      destruct name; [contradiction | discriminate]. }
    rewrite Hne.
    assert (Hr : forall x : string, x ++ "" = x).
    { induction x as [|c x IHx]; cbn [append]; now rewrite ?IHx. }
    now rewrite Hr.
Qed.

Lemma initials_of_display_name_witness :
  Profile.getInitials (fun s => s)
    (Some (Profile.mkUserData (Some (" " ++ "ada lovelace")) "ada@example.org"))
  = Profile.getInitials (fun s => s)
      (Some (Profile.mkUserData (Some "ada lovelace") "ada@example.org")).
Proof.
  refine (proj1 (proj2 (initials_of_display_name (fun s => s) "ada lovelace"
                          "ada@example.org" _))).
  discriminate.
Defined.

(** X13.  The edge cases of [getInitials].  Without [userData] it returns
    [undefined].  It throws exactly when there is no display name (null or
    empty) and the email is empty.  A display name made of spaces only is
    not replaced by the email: the result is the upper-casing of the empty
    string, cut to two characters. *)
Theorem initials_edge_cases (toUpperCase : string -> string) :
  Profile.getInitials toUpperCase None = Profile.Returned None
  /\ (forall u : Profile.UserData,
         Profile.getInitials toUpperCase (Some u) = Profile.TypeError
         <-> JS.truthy (Profile.displayName u) = false /\ Profile.email u = "")
  /\ (forall (n : nat) (mail : string),
         Profile.getInitials toUpperCase
           (Some (Profile.mkUserData (Some (Profile.blank (S n))) mail))
         = Profile.Returned (Some (Profile.sliceTo (toUpperCase "") 2))).
Proof.
  split; [reflexivity|]. split.
  - intros [[name|] mail]; unfold Profile.getInitials;
      cbn [Profile.displayName Profile.email JS.truthy];
      try destruct (name =? ""); cbn [negb];
      destruct mail; cbn [Profile.first];
      (split; [intros H | intros [H1 H2]]);
      try discriminate; try reflexivity; now split.
  - intros n mail. unfold Profile.getInitials. cbn [Profile.displayName].
    change (Profile.blank (S n) =? "") with false.
    now rewrite firstLetters_blank.
Qed.


(** * Row selection of the orders table *)

Section SelectionFacts.

Import Orders.

Lemma assign_keys (o : RowSelectionState) (k : string) (v : bool) (x : string) :
  In x (map fst (assign o k v)) <-> x = k \/ In x (map fst o).
Proof.
  induction o as [|[k' v'] o IH]; cbn [assign map fst In].
  - intuition.
  - destruct (k' =? k) eqn:E; cbn [map fst In].
    + apply String.eqb_eq in E. subst k'. intuition.
    + rewrite IH. intuition.
Qed.

Lemma assign_fresh (o : RowSelectionState) (k : string) (v : bool) :
  ~ In k (map fst o) -> assign o k v = (o ++ [(k, v)])%list.
Proof.
  induction o as [|[k' v'] o IH]; cbn [assign map fst In app]; intros H.
  - reflexivity.
  - destruct (k' =? k) eqn:E.
    + apply String.eqb_eq in E. subst k'. exfalso. apply H. now left.
    + rewrite IH; [reflexivity|]. intros Hin. apply H. now right.
Qed.

Lemma assign_NoDup (o : RowSelectionState) (k : string) (v : bool) :
  NoDup (map fst o) -> NoDup (map fst (assign o k v)).
Proof.
  induction o as [|[k' v'] o IH]; cbn [assign map fst]; intros H.
  - constructor; [intros [] | constructor].
  - inversion H as [|? ? Hnotin Hrest]; subst.
    destruct (k' =? k) eqn:E; cbn [map fst].
    + now constructor.
    + constructor; [|now apply IH].
      rewrite assign_keys. intros [-> | Hin]; [|contradiction].
      now rewrite String.eqb_refl in E.
Qed.

Lemma assign_allSelected (o : RowSelectionState) (k : string) :
  allSelected o -> allSelected (assign o k true).
Proof.
  unfold allSelected.
  induction o as [|[k' v'] o IH]; cbn [assign]; intros H.
  - now repeat constructor.
  - inversion H; subst. destruct (k' =? k); constructor; auto.
Qed.

Lemma select_all_facts (ids : list string) (o : RowSelectionState) :
  let o' := fold_left (fun o id => setProperty o id true) ids o in
  (forall x, In x (map fst o') <->
             In x (map fst o) \/ (In x ids /\ x <> "__proto__"))
  /\ (NoDup (map fst o) -> NoDup (map fst o'))
  /\ (allSelected o -> allSelected o').
Proof.
  revert o. induction ids as [|id ids IH]; intros o; cbn [fold_left].
  - cbn [In]. intuition.
  - specialize (IH (setProperty o id true)). cbv zeta in IH |- *.
    destruct IH as [Hin [Hnd Hall]].
    unfold setProperty in *.
    destruct (id =? "__proto__") eqn:E.
    + apply String.eqb_eq in E. subst id. split; [|split]; auto.
      intros x. rewrite Hin. cbn [In]. intuition congruence.
    + apply String.eqb_neq in E. split; [|split].
      * intros x. rewrite Hin, assign_keys. cbn [In].
        intuition (subst; auto).
      * intros H. now apply Hnd, assign_NoDup.
      * intros H. now apply Hall, assign_allSelected.
Qed.

Lemma select_all_fresh (ids : list string) (o : RowSelectionState) :
  NoDup (map fst o ++ ids) -> ~ In "__proto__" ids ->
  map fst (fold_left (fun o id => setProperty o id true) ids o)
  = (map fst o ++ ids)%list.
Proof.
  revert o. induction ids as [|id ids IH]; intros o Hnd Hproto;
    cbn [fold_left].
  - now rewrite app_nil_r.
  - assert (Hid : id <> "__proto__").
    { intros ->. apply Hproto. now left. }
    assert (Hfresh : ~ In id (map fst o)).
    { intros Hin. apply NoDup_remove_2 in Hnd. apply Hnd.
      apply in_or_app. now left. }
    unfold setProperty at 2. apply String.eqb_neq in Hid. rewrite Hid.
    rewrite (assign_fresh _ _ _ Hfresh), IH.
    + rewrite map_app. cbn [map fst]. now rewrite <- app_assoc.
    + rewrite map_app. cbn [map fst]. now rewrite <- app_assoc.
    + intros Hin. apply Hproto. now right.
Qed.

Lemma insertIndex_perm (n : N) (k : string) (l : list (N * string)) :
  Permutation (insertIndex n k l) ((n, k) :: l).
Proof.
  induction l as [|[m k'] l IH]; cbn [insertIndex].
  - reflexivity.
  - destruct (N.leb n m); [reflexivity|].
    rewrite IH. apply perm_swap.
Qed.

Lemma indexKeys_perm (keys : list string) :
  Permutation (map snd (indexKeys keys)) (filter isArrayIndex keys).
Proof.
  induction keys as [|k keys IH]; cbn [indexKeys filter].
  - reflexivity.
  - unfold isArrayIndex at 1. destruct (arrayIndex k) as [n|].
    + rewrite insertIndex_perm. cbn [map snd]. now constructor.
    + exact IH.
Qed.

Lemma filter_split_perm (A : Type) (f : A -> bool) (l : list A) :
  Permutation (filter f l ++ filter (fun x => negb (f x)) l) l.
Proof.
  induction l as [|x l IH]; cbn [filter app].
  - reflexivity.
  - destruct (f x); cbn [negb app].
    + now constructor.
    + rewrite <- Permutation_middle. now constructor.
Qed.

Lemma ownKeys_perm (o : RowSelectionState) :
  Permutation (ownKeys o) (map fst o).
Proof.
  unfold ownKeys. rewrite indexKeys_perm. apply filter_split_perm.
Qed.

Lemma indexKeys_none (keys : list string) :
  Forall (fun k => isArrayIndex k = false) keys -> indexKeys keys = [].
Proof.
  induction 1 as [|k keys Hk _ IH]; cbn [indexKeys]; [reflexivity|].
  unfold isArrayIndex in Hk. destruct (arrayIndex k); [discriminate Hk|exact IH].
Qed.

Lemma filter_all (A : Type) (f : A -> bool) (l : list A) :
  (forall x, In x l -> f x = true) -> filter f l = l.
Proof.
  induction l as [|x l IH]; cbn [filter]; intros H; [reflexivity|].
  rewrite (H x (or_introl eq_refl)), IH; [reflexivity|].
  intros y Hy. apply H. now right.
Qed.

Lemma getProperty_selected (o : RowSelectionState) (k : string) :
  allSelected o -> In k (map fst o) -> getProperty o k = true.
Proof.
  unfold allSelected.
  induction o as [|[k' v] o IH]; cbn [map fst In getProperty]; intros Hall Hin.
  - contradiction.
  - inversion Hall as [|? ? Hv Hrest]; subst. cbn [snd] in Hv.
    destruct (k' =? k) eqn:E; [exact Hv|].
    destruct Hin as [-> | Hin]; [now rewrite String.eqb_refl in E | auto].
Qed.

Lemma selected_of_rowSelection (ids : list string) :
  handleRowSelectionChange (rowSelection ids) (UpdaterValue (rowSelection ids))
  = ownKeys (rowSelection ids).
Proof.
  unfold handleRowSelectionChange. apply filter_all. intros k Hk.
  destruct (select_all_facts ids []) as [_ [_ Hall]].
  apply getProperty_selected.
  - apply Hall. constructor.
  - now apply (Permutation_in _ (ownKeys_perm _)).
Qed.

End SelectionFacts.

(** X14.  Selection round trip.  When the table hands back the selection
    it was given, the ids reported to [onRowSelectionChange] are the
    selected ids, each once: an id is reported iff it was selected, except
    the id [__proto__], which is never reported; and the identity updater
    reports the same list. *)
Theorem selection_round_trip (ids : list string) :
  let current := Orders.rowSelection ids in
  let reported :=
    Orders.handleRowSelectionChange current (Orders.UpdaterValue current) in
  (forall id : string, In id reported <-> In id ids /\ id <> "__proto__")
  /\ NoDup reported
  /\ Orders.handleRowSelectionChange current
       (Orders.UpdaterFunction (fun old => old)) = reported.
Proof.
  intros current reported. unfold reported, current.
  rewrite selected_of_rowSelection.
  destruct (select_all_facts ids []) as [Hin [Hnd _]]. cbv zeta in Hin, Hnd.
  fold (Orders.rowSelection ids) in Hin, Hnd.
  split; [|split].
  - intros id. split.
    + intros H. apply (Permutation_in _ (ownKeys_perm _)) in H.
      apply Hin in H. cbn [map In] in H. tauto.
    + intros H.
      apply (Permutation_in _ (Permutation_sym (ownKeys_perm _))).
      apply Hin. now right.
  - apply (Permutation_NoDup (Permutation_sym (ownKeys_perm _))).
    apply Hnd. constructor.
  - exact (selected_of_rowSelection ids).
Qed.

(** X15.  The order of the selection is kept when no id is an array index:
    for distinct ids, none of them a canonical numeral below 2^32 - 1 and
    none [__proto__], the ids reported are the selected ids in the order
    given.  (Array-index ids are reported first, in numeric order.) *)
Theorem selection_order_kept (ids : list string) :
  NoDup ids ->
  Forall (fun id => Orders.isArrayIndex id = false) ids ->
  ~ In "__proto__" ids ->
  Orders.handleRowSelectionChange (Orders.rowSelection ids)
    (Orders.UpdaterValue (Orders.rowSelection ids)) = ids.
Proof.
  intros Hnd Hidx Hproto. rewrite selected_of_rowSelection.
  unfold Orders.ownKeys, Orders.rowSelection.
  rewrite (select_all_fresh ids [] Hnd Hproto). cbn [map app].
  rewrite (indexKeys_none _ Hidx). cbn [map app].
  apply filter_all. intros k Hk.
  rewrite Forall_forall in Hidx. now rewrite (Hidx k Hk).
Qed.

Lemma selection_order_kept_witness :
  Orders.handleRowSelectionChange
    (Orders.rowSelection ["ord_b"; "ord_a"; "7f3c"])
    (Orders.UpdaterValue (Orders.rowSelection ["ord_b"; "ord_a"; "7f3c"]))
  = ["ord_b"; "ord_a"; "7f3c"].
Proof.
  apply (selection_order_kept ["ord_b"; "ord_a"; "7f3c"]).
  - repeat constructor; cbn [In]; intuition discriminate.
  - repeat constructor.
  - cbn [In]. intuition discriminate.
Defined.

Section KeyOrderFacts.

Import Orders.

Lemma insertIndex_sorted (n : N) (k : string) (l : list (N * string)) :
  Sorted (fun a b => (fst a <= fst b)%N) l ->
  Sorted (fun a b => (fst a <= fst b)%N) (insertIndex n k l).
Proof.
  induction l as [|[m k'] l IH]; cbn [insertIndex]; intros Hs.
  - now repeat constructor.
  - destruct (N.leb n m) eqn:E.
    + apply N.leb_le in E. constructor; [exact Hs|]. now constructor.
    + apply N.leb_gt in E. inversion Hs as [|? ? Hl Hhd]; subst.
      constructor; [now apply IH|].
      destruct l as [|[m' k''] l]; cbn [insertIndex].
      * constructor. cbn [fst]. lia.
      * inversion Hhd; subst. cbn [fst] in *.
        destruct (N.leb n m'); constructor; cbn [fst]; lia.
Qed.

Lemma insertIndex_Forall (P : N * string -> Prop) (n : N) (k : string)
    (l : list (N * string)) :
  P (n, k) -> Forall P l -> Forall P (insertIndex n k l).
Proof.
  intros Hnk. induction 1 as [|[m k'] l Hm Hl IH]; cbn [insertIndex].
  - now repeat constructor.
  - destruct (N.leb n m); repeat constructor; auto.
Qed.

Lemma indexKeys_sorted (keys : list string) :
  Sorted (fun a b => (fst a <= fst b)%N) (indexKeys keys)
  /\ Forall (fun nk => arrayIndex (snd nk) = Some (fst nk)) (indexKeys keys).
Proof.
  induction keys as [|k keys [IHs IHf]]; cbn [indexKeys].
  - split; constructor.
  - destruct (arrayIndex k) as [n|] eqn:E; [|now split].
    split; [now apply insertIndex_sorted | now apply insertIndex_Forall].
Qed.

End KeyOrderFacts.

(** X16.  The order of the ids reported, for distinct ids other than
    [__proto__]: first the ids that are array indices (canonical numerals
    up to 2^32 - 2) in ascending numeric order, whatever order they were
    selected in, then the other ids in the order given. *)
Theorem selection_order_numeric (ids : list string) :
  NoDup ids -> ~ In "__proto__" ids ->
  exists indices : list (N * string),
    Orders.handleRowSelectionChange (Orders.rowSelection ids)
      (Orders.UpdaterValue (Orders.rowSelection ids))
    = (map snd indices
         ++ filter (fun id => negb (Orders.isArrayIndex id)) ids)%list
    /\ Sorted (fun a b => (fst a <= fst b)%N) indices
    /\ Forall (fun nk => Orders.arrayIndex (snd nk) = Some (fst nk)) indices
    /\ Permutation (map snd indices) (filter Orders.isArrayIndex ids).
Proof.
  intros Hnd Hproto. exists (Orders.indexKeys ids).
  rewrite selected_of_rowSelection.
  unfold Orders.ownKeys, Orders.rowSelection.
  rewrite (select_all_fresh ids [] Hnd Hproto). cbn [map app].
  destruct (indexKeys_sorted ids) as [Hs Hf].
  repeat split; trivial. apply indexKeys_perm.
Qed.

Lemma selection_order_numeric_witness :
  exists indices : list (N * string),
    Orders.handleRowSelectionChange (Orders.rowSelection ["b"; "10"; "a"; "9"])
      (Orders.UpdaterValue (Orders.rowSelection ["b"; "10"; "a"; "9"]))
    = (map snd indices
         ++ filter (fun id => negb (Orders.isArrayIndex id))
              ["b"; "10"; "a"; "9"])%list
    /\ Sorted (fun a b => (fst a <= fst b)%N) indices
    /\ Forall (fun nk => Orders.arrayIndex (snd nk) = Some (fst nk)) indices
    /\ Permutation (map snd indices)
         (filter Orders.isArrayIndex ["b"; "10"; "a"; "9"]).
Proof.
  apply (selection_order_numeric ["b"; "10"; "a"; "9"]).
  - repeat constructor; cbn [In]; intuition discriminate.
  - cbn [In]. intuition discriminate.
Defined.

(** X17.  What an authenticated session is allowed.  With an
    organization: api paths, a verification path with a non-empty attempt
    cookie, protected paths, and public paths other than the root and the
    auth paths.  Without an organization: api paths, a verification path
    with a non-empty attempt cookie, and [/onboarding]; nothing else. *)
Theorem authenticated_allowed_iff (p : string) (slug m : option string) :
  decide p (mkSession true slug) m = Allow <->
  isApiRoute p = true
  \/ (isSignInVerifyRoute p = true /\ JS.truthy m = true)
  \/ (isSignInVerifyRoute p = false /\ JS.truthy slug = true
      /\ (isProtectedRoute p = true
          \/ (isPublicRoute p = true /\ isRootRoute p = false
              /\ isAuthRoute p = false)))
  \/ (isSignInVerifyRoute p = false /\ JS.truthy slug = false
      /\ p = "/onboarding").
Proof.
  rewrite <- (String.eqb_eq p "/onboarding"), <- isOnboardingRoute_eq.
  unfold decide. cbn [authenticated activeOrganizationSlug andb negb].
  destruct (isApiRoute p); [intuition|].
  destruct (isSignInVerifyRoute p).
  { destruct (JS.truthy m); intuition discriminate. }
  destruct (JS.truthy slug).
  - destruct (isProtectedRoute p); [intuition|].
    destruct (isPublicRoute p), (isRootRoute p), (isAuthRoute p);
      cbn [andb negb]; intuition discriminate.
  - destruct (isOnboardingRoute p); cbn [negb]; intuition discriminate.
Qed.
